(** * Card / chunk manager of cline-for-writing: a shallow embedding

    The development follows the TypeScript sources

      - [src/utils/CardUtils.ts]      (text utilities),
      - [src/types/WritingCard.ts]    (data model),
      - [src/storage/CardStorage.ts]  (one JSON document per id),
      - [src/services/CardManager.ts] (the file-backed manager),
      - the in-memory [CardManager] variant (its private [countWords]).

    Modelling conventions.
      - A JavaScript string is a [string]; a character stands for one code
        unit below 256.  [isWhiteSpace] is the set matched both by
        [String.prototype.trim] and by the regular expression class [\s],
        restricted to those code units.
      - A JavaScript number that the code only ever uses as an integer is
        a [Z]; a [Date] is the [Z] of its millisecond time stamp (the JSON
        round trip of the storage layer is the identity on it).
      - An optional property is an [option]; a patch ([Partial<T>]) is a
        record of options, [None] meaning that the property is absent.
      - The card and chunk directories are finite maps from the file's
        base name to the parsed document. *)

From Stdlib Require Import ZArith Ascii Bool Lia.
From Stdlib Require String.
From stdpp Require Import base option list gmap strings fin_maps pretty.

Open Scope Z_scope.

(** ** Text utilities ([CardUtils.ts]) *)

Module Text.

Definition LF : ascii := ascii_of_nat 10.

(** Two line feeds: the separator written ["\n\n"] in the sources. *)
Definition blankLine : string := String LF (String LF EmptyString).

(** [WhiteSpace] and [LineTerminator] code units below 256: TAB, LF, VT,
    FF, CR, SPACE and NBSP. *)
Definition isWhiteSpace (c : ascii) : bool :=
  let n := nat_of_ascii c in
  ((9 <=? n)%nat && (n <=? 13)%nat) || (n =? 32)%nat || (n =? 160)%nat.

Definition isEmpty (s : string) : bool :=
  match s with EmptyString => true | String _ _ => false end.

Fixpoint trimStart (s : string) : string :=
  match s with
  | EmptyString => EmptyString
  | String c s' => if isWhiteSpace c then trimStart s' else s
  end.

Fixpoint trimEnd (s : string) : string :=
  match s with
  | EmptyString => EmptyString
  | String c s' =>
      let r := trimEnd s' in
      if isWhiteSpace c && isEmpty r then EmptyString else String c r
  end.

(** [s.trim()] *)
Definition trim (s : string) : string := trimEnd (trimStart s).

(** Adds a character in front of the first piece of a split. *)
Definition consHead (c : ascii) (pieces : list string) : list string :=
  match pieces with
  | [] => [String c EmptyString]
  | t :: ts => String c t :: ts
  end.

(** [s.split(/[class]+/)] for a character class [sep]: every maximal run
    of separator characters ends the current piece and starts a new one.
    [inRun] tells that the previous character belonged to a run. *)
Fixpoint splitRunsGo (sep : ascii -> bool) (inRun : bool) (s : string)
  : list string :=
  match s with
  | EmptyString => [EmptyString]
  | String c s' =>
      if sep c then
        if inRun then splitRunsGo sep true s'
        else EmptyString :: splitRunsGo sep true s'
      else consHead c (splitRunsGo sep false s')
  end.

Definition splitRuns (sep : ascii -> bool) (s : string) : list string :=
  splitRunsGo sep false s.

(** [s.split(c)] for a one-character separator string. *)
Fixpoint splitChar (sep : ascii) (s : string) : list string :=
  match s with
  | EmptyString => [EmptyString]
  | String c s' =>
      if Ascii.eqb c sep then EmptyString :: splitChar sep s'
      else consHead c (splitChar sep s')
  end.

(** [pieces.join(sep)] *)
Fixpoint join (sep : string) (pieces : list string) : string :=
  match pieces with
  | [] => EmptyString
  | [p] => p
  | p :: ps => p +:+ sep +:+ join sep ps
  end.

(** [s.substring(start, end)]: both indices are clamped to
    [0 .. s.length] and swapped when [start > end]. *)
Definition clampIndex (s : string) (i : Z) : nat :=
  Z.to_nat (Z.min (Z.max i 0) (Z.of_nat (String.length s))).

Definition substring (s : string) (start stop : Z) : string :=
  let a := clampIndex s start in
  let b := clampIndex s stop in
  String.substring (Nat.min a b) (Nat.max a b - Nat.min a b) s.

(** [s.substring(start)]: the end index defaults to [s.length]. *)
Definition substringFrom (s : string) (start : Z) : string :=
  substring s start (Z.of_nat (String.length s)).

Definition isSentenceEnd (c : ascii) : bool :=
  Ascii.eqb c "."%char || Ascii.eqb c "!"%char || Ascii.eqb c "?"%char.

(** [extractTitle] *)
Definition extractTitle (content : string) : string :=
  let lines := splitChar LF (trim content) in
  let firstLine := trim (hd EmptyString lines) in
  if (0 <? String.length firstLine)%nat then
    if (String.length firstLine <=? 50)%nat then firstLine
    else
      let sentences := splitRuns isSentenceEnd firstLine in
      let firstSentence := trim (hd EmptyString sentences) in
      if (String.length firstSentence <=? 50)%nat then firstSentence
      else substring firstSentence 0 47 +:+ "..."
  else "Untitled Card".

(** [countWords], the utility used by the file-backed manager. *)
Definition countWords (content : string) : Z :=
  if isEmpty content || (String.length (trim content) =? 0)%nat then 0
  else Z.of_nat (List.length (splitRuns isWhiteSpace (trim content))).

(** The number of characters of the white space run at the start of [s]
    up to and including its last line feed, if it has one: where the
    greedy [\s*] followed by [\n] stops. *)
Fixpoint lastLineFeed (s : string) : option nat :=
  match s with
  | EmptyString => None
  | String c s' =>
      if isWhiteSpace c then
        match lastLineFeed s' with
        | Some k => Some (S k)
        | None => if Ascii.eqb c LF then Some 1%nat else None
        end
      else None
  end.

(** [s.split(/\n\s*\n/)]: a match starts at a line feed whose following
    white space run holds another line feed and ends at the last such
    one; [skip] counts the characters of the current match still to be
    passed over. *)
Fixpoint splitBlankGo (skip : nat) (s : string) : list string :=
  match s with
  | EmptyString => [EmptyString]
  | String c s' =>
      match skip with
      | S k => splitBlankGo k s'
      | O =>
          match (if Ascii.eqb c LF then lastLineFeed s' else None) with
          | Some k => EmptyString :: splitBlankGo k s'
          | None => consHead c (splitBlankGo 0 s')
          end
      end
  end.

Definition splitBlankLines (s : string) : list string := splitBlankGo 0 s.

(** [detectParagraphs] *)
Definition detectParagraphs (text : string) : list string :=
  filter (fun p => (0 <? String.length p)%nat)
    (map trim (splitBlankLines text)).

(** The character class of [sanitizeFilename]: less-than, greater-than,
    colon, double quote, slash, backslash, bar, question mark, star. *)
Definition isInvalidFileChar (c : ascii) : bool :=
  let n := nat_of_ascii c in
  (n =? 60)%nat || (n =? 62)%nat || (n =? 58)%nat || (n =? 34)%nat
  || (n =? 47)%nat || (n =? 92)%nat || (n =? 124)%nat || (n =? 63)%nat
  || (n =? 42)%nat.

(** [s.replace(/[class]/g, by)] for a one-character replacement. *)
Fixpoint replaceEach (class : ascii -> bool) (by' : ascii) (s : string)
  : string :=
  match s with
  | EmptyString => EmptyString
  | String c s' =>
      String (if class c then by' else c) (replaceEach class by' s')
  end.

(** [s.replace(/[class]+/g, by)]: every maximal run becomes one [by]. *)
Fixpoint replaceRunsGo (class : ascii -> bool) (by' : ascii) (inRun : bool)
  (s : string) : string :=
  match s with
  | EmptyString => EmptyString
  | String c s' =>
      if class c then
        if inRun then replaceRunsGo class by' true s'
        else String by' (replaceRunsGo class by' true s')
      else String c (replaceRunsGo class by' false s')
  end.

Definition replaceRuns (class : ascii -> bool) (by' : ascii) (s : string)
  : string :=
  replaceRunsGo class by' false s.

(** [toLowerCase] on one code unit below 256: the letters A-Z and the
    Latin-1 capitals (192-214, 216-222) move up by 32. *)
Definition toLowerChar (c : ascii) : ascii :=
  let n := nat_of_ascii c in
  if ((65 <=? n)%nat && (n <=? 90)%nat)
     || ((192 <=? n)%nat && (n <=? 214)%nat)
     || ((216 <=? n)%nat && (n <=? 222)%nat)
  then ascii_of_nat (n + 32) else c.

Fixpoint toLowerCase (s : string) : string :=
  match s with
  | EmptyString => EmptyString
  | String c s' => String (toLowerChar c) (toLowerCase s')
  end.

(** [sanitizeFilename] *)
Definition sanitizeFilename (filename : string) : string :=
  toLowerCase
    (replaceRuns isWhiteSpace "_"%char
       (replaceEach isInvalidFileChar "-"%char filename)).

(** [truncateText]; [maxLength] defaults to 100. *)
Definition truncateText (text : string) (maxLength : option Z) : string :=
  let maxLength := default 100 maxLength in
  if Z.of_nat (String.length text) <=? maxLength then text
  else substring text 0 (maxLength - 3) +:+ "...".

End Text.

(** The private [countWords] of the in-memory [CardManager] variant. *)
Module InMemory.

Definition countWords (text : string) : Z :=
  Z.of_nat
    (List.length
       (filter (fun word => (0 <? String.length word)%nat)
          (Text.splitRuns Text.isWhiteSpace (Text.trim text)))).

End InMemory.

(** ** Data model ([WritingCard.ts]) *)

Inductive ChangeType := create | edit | merge | split.
Inductive CardStatus := draft | edited | reviewed | final.
Inductive LayoutType := grid | freeform | linear.

Module Entry.
(** [VersionEntry] *)
Record t := mk {
  timestamp : Z;
  content : string;
  author : option string;
  changeType : ChangeType
}.
End Entry.

Module Position.
(** [CardPosition] *)
Record t := mk {
  x : Z;
  y : Z;
  width : Z;
  height : Z;
  zIndex : option Z
}.
End Position.

Module Meta.
(** The [metadata] object of a card. *)
Record t := mk {
  wordCount : Z;
  createdAt : Z;
  updatedAt : Z;
  chunkId : option string;
  color : option string;
  priority : option Z
}.
End Meta.

Module Card.
(** [WritingCard] *)
Record t := mk {
  id : string;
  title : string;
  content : string;
  tags : list string;
  status : CardStatus;
  history : list Entry.t;
  position : Position.t;
  metadata : Meta.t
}.

(** [card.history.push(entry)] on a card object that nothing else
    refers to. *)
Definition pushHistory (card : t) (entry : Entry.t) : t :=
  mk (id card) (title card) (content card) (tags card) (status card)
     (history card ++ [entry]) (position card) (metadata card).
End Card.

Module CardPatch.
(** [Partial<WritingCard>] *)
Record t := mk {
  id : option string;
  title : option string;
  content : option string;
  tags : option (list string);
  status : option CardStatus;
  history : option (list Entry.t);
  position : option Position.t;
  metadata : option Meta.t
}.

(** The patch [{}]. *)
Definition empty : t := mk None None None None None None None None.
End CardPatch.

Module Layout.
(** [ChunkLayout] *)
Record t := mk {
  type : LayoutType;
  columns : option Z;
  spacing : option Z;
  autoArrange : option bool
}.
End Layout.

Module Chunk.
(** [ContentChunk] *)
Record t := mk {
  id : string;
  name : string;
  cardIds : list string;
  purpose : string;
  layout : Layout.t
}.
End Chunk.

Module ChunkPatch.
(** [Partial<ContentChunk>] *)
Record t := mk {
  id : option string;
  name : option string;
  cardIds : option (list string);
  purpose : option string;
  layout : option Layout.t
}.

Definition empty : t := mk None None None None None.
End ChunkPatch.

(** ** The world the manager runs in *)

(** The two directories of [CardStorage], the stream of identifiers that
    [randomUUID] is going to return and the readings that the successive
    [new Date()] are going to give, with the number already consumed. *)
Record World := mkWorld {
  cardsDir : gmap string Card.t;
  chunksDir : gmap string Chunk.t;
  randomUUID : nat -> string;
  issued : nat;
  clock : nat -> Z;
  reads : nat
}.

(** The errors thrown by the manager, one per message:
    [Card with id ... not found], [Chunk with id ... not found] and
    [One or both cards not found]. *)
Inductive Failure :=
| CardNotFound (id : string)
| ChunkNotFound (id : string)
| CardsNotFound.

Inductive Result (A : Type) :=
| Ok (a : A)
| Err (e : Failure).
Arguments Ok {A} a.
Arguments Err {A} e.

(** An [async] method: it runs on a world and leaves a world behind also
    when it throws (nothing is rolled back). *)
Definition M (A : Type) : Type := World -> Result A * World.

Definition ret {A} (a : A) : M A := fun w => (Ok a, w).

Definition throw {A} (e : Failure) : M A := fun w => (Err e, w).

Definition bind {A B} (m : M A) (k : A -> M B) : M B :=
  fun w =>
    match m w with
    | (Ok a, w') => k a w'
    | (Err e, w') => (Err e, w')
    end.

Notation "'let*' x ':=' m 'in' k" := (bind m (fun x => k))
  (at level 10, x pattern, m at level 100, k at level 200).

Definition withCards (f : gmap string Card.t -> gmap string Card.t)
  (w : World) : World :=
  mkWorld (f (cardsDir w)) (chunksDir w) (randomUUID w) (issued w)
          (clock w) (reads w).

Definition withChunks (f : gmap string Chunk.t -> gmap string Chunk.t)
  (w : World) : World :=
  mkWorld (cardsDir w) (f (chunksDir w)) (randomUUID w) (issued w)
          (clock w) (reads w).

(** [new Date()] *)
Definition newDate : M Z :=
  fun w =>
    (Ok (clock w (reads w)),
     mkWorld (cardsDir w) (chunksDir w) (randomUUID w) (issued w)
             (clock w) (S (reads w))).

(** [generateCardId] *)
Definition generateCardId : M string :=
  fun w =>
    (Ok (randomUUID w (issued w)),
     mkWorld (cardsDir w) (chunksDir w) (randomUUID w) (S (issued w))
             (clock w) (reads w)).

(** ** Storage ([CardStorage.ts]) *)

Module Storage.

Definition saveCard (card : Card.t) : M unit :=
  fun w => (Ok tt, withCards (insert (Card.id card) card) w).

Definition loadCard (id : string) : M (option Card.t) :=
  fun w => (Ok (cardsDir w !! id), w).

Definition deleteCard (id : string) : M bool :=
  fun w =>
    match cardsDir w !! id with
    | Some _ => (Ok true, withCards (delete id) w)
    | None => (Ok false, w)
    end.

Definition saveChunk (chunk : Chunk.t) : M unit :=
  fun w => (Ok tt, withChunks (insert (Chunk.id chunk) chunk) w).

Definition loadChunk (id : string) : M (option Chunk.t) :=
  fun w => (Ok (chunksDir w !! id), w).

Definition deleteChunk (id : string) : M bool :=
  fun w =>
    match chunksDir w !! id with
    | Some _ => (Ok true, withChunks (delete id) w)
    | None => (Ok false, w)
    end.

End Storage.

(** ** The manager ([CardManager.ts]) *)

(** A string is truthy when it is not empty. *)
Definition truthy (o : option string) : bool :=
  match o with
  | Some s => negb (Text.isEmpty s)
  | None => false
  end.

(** [n || d] on an optional number: [d] when [n] is absent or zero. *)
Definition orDefault (n : option Z) (d : Z) : Z :=
  match n with
  | Some v => if v =? 0 then d else v
  | None => d
  end.

(** [[...new Set(l)]]: the elements in the order of their first
    occurrence. *)
Fixpoint dedupGo (seen l : list string) : list string :=
  match l with
  | [] => []
  | t :: l' =>
      if bool_decide (t ∈ seen) then dedupGo seen l'
      else t :: dedupGo (t :: seen) l'
  end.

Definition dedup (l : list string) : list string := dedupGo [] l.

(** [{ ...card.metadata, ...updates.metadata, updatedAt, wordCount }] *)
Definition spreadMetadata (old : Meta.t) (patch : option Meta.t)
  (now wc : Z) : Meta.t :=
  match patch with
  | None =>
      Meta.mk wc (Meta.createdAt old) now (Meta.chunkId old)
              (Meta.color old) (Meta.priority old)
  | Some m =>
      Meta.mk wc (Meta.createdAt m) now
              (match Meta.chunkId m with
               | Some v => Some v | None => Meta.chunkId old end)
              (match Meta.color m with
               | Some v => Some v | None => Meta.color old end)
              (match Meta.priority m with
               | Some v => Some v | None => Meta.priority old end)
  end.

(** [{ ...card, ...updates, metadata }] *)
Definition spreadCard (card : Card.t) (updates : CardPatch.t)
  (metadata : Meta.t) : Card.t :=
  Card.mk (default (Card.id card) (CardPatch.id updates))
          (default (Card.title card) (CardPatch.title updates))
          (default (Card.content card) (CardPatch.content updates))
          (default (Card.tags card) (CardPatch.tags updates))
          (default (Card.status card) (CardPatch.status updates))
          (default (Card.history card) (CardPatch.history updates))
          (default (Card.position card) (CardPatch.position updates))
          metadata.

(** [{ ...chunk, ...updates }] *)
Definition spreadChunk (chunk : Chunk.t) (updates : ChunkPatch.t)
  : Chunk.t :=
  Chunk.mk (default (Chunk.id chunk) (ChunkPatch.id updates))
           (default (Chunk.name chunk) (ChunkPatch.name updates))
           (default (Chunk.cardIds chunk) (ChunkPatch.cardIds updates))
           (default (Chunk.purpose chunk) (ChunkPatch.purpose updates))
           (default (Chunk.layout chunk) (ChunkPatch.layout updates)).

Definition defaultPosition : Position.t := Position.mk 0 0 250 200 None.

Definition defaultLayout : Layout.t :=
  Layout.mk grid (Some 3) (Some 20) (Some true).

Definition createCard (content : string) (title : option string)
  (tags : option (list string)) (position : option Position.t)
  : M Card.t :=
  let* id := generateCardId in
  let extractedTitle :=
    if truthy title then default EmptyString title
    else Text.extractTitle content in
  let wordCount := Text.countWords content in
  let* t0 := newDate in
  let* t1 := newDate in
  let* t2 := newDate in
  let card :=
    Card.mk id extractedTitle content (default [] tags) draft
            [Entry.mk t0 content None create]
            (default defaultPosition position)
            (Meta.mk wordCount t1 t2 None None None) in
  let* _ := Storage.saveCard card in
  ret card.

Definition updateCard (id : string) (updates : CardPatch.t) : M Card.t :=
  let* loaded := Storage.loadCard id in
  match loaded with
  | None => throw (CardNotFound id)
  | Some card =>
      let* now := newDate in
      let updatedCard :=
        spreadCard card updates
          (spreadMetadata (Card.metadata card) (CardPatch.metadata updates)
             now
             (if truthy (CardPatch.content updates)
              then Text.countWords
                     (default EmptyString (CardPatch.content updates))
              else Meta.wordCount (Card.metadata card))) in
      let* updatedCard :=
        match CardPatch.content updates with
        | Some c =>
            if negb (Text.isEmpty c) && negb (String.eqb c (Card.content card))
            then
              let* t := newDate in
              ret (Card.mk (Card.id updatedCard) (Card.title updatedCard)
                     (Card.content updatedCard) (Card.tags updatedCard)
                     (Card.status updatedCard)
                     (Card.history card ++ [Entry.mk t c None edit])
                     (Card.position updatedCard)
                     (Card.metadata updatedCard))
            else ret updatedCard
        | None => ret updatedCard
        end in
      let* _ := Storage.saveCard updatedCard in
      ret updatedCard
  end.

Definition deleteCard (id : string) : M bool := Storage.deleteCard id.

Definition getCard (id : string) : M (option Card.t) := Storage.loadCard id.

Definition splitCard (id : string) (splitPoint : Z)
  : M (Card.t * Card.t) :=
  let* loaded := Storage.loadCard id in
  match loaded with
  | None => throw (CardNotFound id)
  | Some card =>
      let content1 :=
        Text.trim (Text.substring (Card.content card) 0 splitPoint) in
      let content2 :=
        Text.trim (Text.substringFrom (Card.content card) splitPoint) in
      let* updatedCard1 :=
        updateCard id
          (CardPatch.mk None (Some (Text.extractTitle content1))
             (Some content1) None None None None None) in
      let* newCard :=
        createCard content2 (Some (Text.extractTitle content2))
          (Some (Card.tags card))
          (Some (Position.mk
                   (Position.x (Card.position card)
                    + Position.width (Card.position card) + 20)
                   (Position.y (Card.position card))
                   (Position.width (Card.position card))
                   (Position.height (Card.position card))
                   None)) in
      let* t1 := newDate in
      let updatedCard1 :=
        Card.pushHistory updatedCard1 (Entry.mk t1 content1 None split) in
      let* t2 := newDate in
      let newCard :=
        Card.pushHistory newCard (Entry.mk t2 content2 None split) in
      let* _ := Storage.saveCard updatedCard1 in
      let* _ := Storage.saveCard newCard in
      ret (updatedCard1, newCard)
  end.

Definition mergeCards (id1 id2 : string) : M Card.t :=
  let* loaded1 := Storage.loadCard id1 in
  let* loaded2 := Storage.loadCard id2 in
  match loaded1, loaded2 with
  | Some card1, Some card2 =>
      let mergedContent :=
        Card.content card1 +:+ Text.blankLine +:+ Card.content card2 in
      let mergedTags := dedup (Card.tags card1 ++ Card.tags card2) in
      let* mergedCard :=
        updateCard id1
          (CardPatch.mk None (Some (Text.extractTitle mergedContent))
             (Some mergedContent) (Some mergedTags) None None None None) in
      let* t := newDate in
      let mergedCard :=
        Card.pushHistory mergedCard (Entry.mk t mergedContent None merge) in
      let* _ := Storage.saveCard mergedCard in
      let* _ := Storage.deleteCard id2 in
      ret mergedCard
  | _, _ => throw CardsNotFound
  end.

Definition updateCardPosition (id : string) (position : Position.t)
  : M Card.t :=
  updateCard id
    (CardPatch.mk None None None None None None (Some position) None).

(** [Promise.all(cardIds.map((id) => this.storage.loadCard(id)))]
    followed by [filter((card) => card !== null)]. *)
Definition loadValidCards (cardIds : list string) : M (list Card.t) :=
  fun w => (Ok (omap (fun id => cardsDir w !! id) cardIds), w).

(** The two [for] loops of [autoArrangeCards]: the card at index [i] is
    replaced by the result of [updateCardPosition] at [place i]. *)
Fixpoint arrangeFrom (place : Z -> Position.t) (i : Z)
  (validCards : list Card.t) : M (list Card.t) :=
  match validCards with
  | [] => ret []
  | card :: rest =>
      let* card' := updateCardPosition (Card.id card) (place i) in
      let* rest' := arrangeFrom place (i + 1) rest in
      ret (card' :: rest')
  end.

Definition gridPosition (columns spacing i : Z) : Position.t :=
  let cardWidth := 250 in
  let cardHeight := 200 in
  let row := i / columns in
  let col := Z.rem i columns in
  Position.mk (col * (cardWidth + spacing)) (row * (cardHeight + spacing))
              cardWidth cardHeight None.

Definition linearPosition (spacing i : Z) : Position.t :=
  let cardWidth := 250 in
  let cardHeight := 200 in
  Position.mk (i * (cardWidth + spacing)) 0 cardWidth cardHeight None.

Definition autoArrangeCards (cardIds : list string) (layout : Layout.t)
  : M (list Card.t) :=
  let* validCards := loadValidCards cardIds in
  match Layout.type layout with
  | grid =>
      let columns := orDefault (Layout.columns layout) 3 in
      let spacing := orDefault (Layout.spacing layout) 20 in
      arrangeFrom (gridPosition columns spacing) 0 validCards
  | linear =>
      let spacing := orDefault (Layout.spacing layout) 20 in
      arrangeFrom (linearPosition spacing) 0 validCards
  | freeform => ret validCards
  end.

Definition createChunk (name : string) (cardIds : option (list string))
  (purpose : option string) (layout : option Layout.t) : M Chunk.t :=
  let cardIds := default [] cardIds in
  let purpose := default "general" purpose in
  let layout := default defaultLayout layout in
  let* id := generateCardId in
  let chunk := Chunk.mk id name cardIds purpose layout in
  let* _ := Storage.saveChunk chunk in
  let* _ :=
    if default false (Layout.autoArrange layout)
       && (0 <? List.length cardIds)%nat
    then let* _ := autoArrangeCards cardIds layout in ret tt
    else ret tt in
  ret chunk.

Definition updateChunk (id : string) (updates : ChunkPatch.t)
  : M Chunk.t :=
  let* loaded := Storage.loadChunk id in
  match loaded with
  | None => throw (ChunkNotFound id)
  | Some chunk =>
      let updatedChunk := spreadChunk chunk updates in
      let* _ := Storage.saveChunk updatedChunk in
      let* _ :=
        if default false
             (l ← ChunkPatch.layout updates; Layout.autoArrange l)
           && (0 <? List.length (Chunk.cardIds updatedChunk))%nat
        then
          let* _ :=
            autoArrangeCards (Chunk.cardIds updatedChunk)
              (Chunk.layout updatedChunk) in
          ret tt
        else ret tt in
      ret updatedChunk
  end.

Definition deleteChunk (id : string) : M bool := Storage.deleteChunk id.

Definition getChunk (id : string) : M (option Chunk.t) :=
  Storage.loadChunk id.

Definition exportChunkAsText (chunkId : string) : M string :=
  let* loaded := Storage.loadChunk chunkId in
  match loaded with
  | None => throw (ChunkNotFound chunkId)
  | Some chunk =>
      let* validCards := loadValidCards (Chunk.cardIds chunk) in
      ret (Text.join Text.blankLine (map Card.content validCards))
  end.

(** The [splitBy] argument of [importTextAsCards]. *)
Inductive SplitBy := paragraph | sentence | custom.

(** The [segments] that [importTextAsCards] cuts out of the text. *)
Definition importSegments (text : string) (splitBy : SplitBy)
  : list string :=
  match splitBy with
  | paragraph =>
      filter (fun s => (0 <? String.length (Text.trim s))%nat)
        (Text.splitBlankLines text)
  | sentence =>
      filter (fun s => (0 <? String.length (Text.trim s))%nat)
        (Text.splitRuns Text.isSentenceEnd text)
  | custom => [text]
  end.

(** The loop of [importTextAsCards] from index [i] on: one card per
    segment, on a grid of three columns. *)
Fixpoint importCardsFrom (i : Z) (segments : list string)
  : M (list Card.t) :=
  match segments with
  | [] => ret []
  | segment :: rest =>
      let content := Text.trim segment in
      let* card :=
        createCard content (Some (Text.extractTitle content)) (Some [])
          (Some (Position.mk (Z.rem i 3 * 270) (i / 3 * 220) 250 200
                   None)) in
      let* cards := importCardsFrom (i + 1) rest in
      ret (card :: cards)
  end.

Definition importTextAsCards (text chunkName : string)
  (splitBy : option SplitBy) : M Chunk.t :=
  let segments := importSegments text (default paragraph splitBy) in
  let* cards := importCardsFrom 0 segments in
  let* chunk :=
    createChunk chunkName (Some (map Card.id cards))
      (Some "imported-text") None in
  ret chunk.

(** ** The in-memory manager and the service on top of it *)

Inductive GroupBy := byStatus | byTags | byChunk | byNone.

Module View.
(** [CardboardView] with its [viewSettings] flattened. *)
Record t := mk {
  id : string;
  name : string;
  description : option string;
  chunkIds : list string;
  zoom : Z;
  centerX : Z;
  centerY : Z;
  showMetadata : bool;
  showConnections : bool;
  groupBy : option GroupBy
}.
End View.

Module Memory.

(** The three [Map]s of the in-memory [CardManager], its [nextId]
    counter, and the readings that the clock is going to give with the
    number already taken. *)
Record State := mkState {
  cards : gmap string Card.t;
  chunks : gmap string Chunk.t;
  views : gmap string View.t;
  nextId : nat;
  clock : nat -> Z;
  reads : nat
}.

(** [new Date()] and [Date.now()] *)
Definition tick (s : State) : Z * State :=
  (clock s (reads s),
   mkState (cards s) (chunks s) (views s) (nextId s) (clock s)
           (S (reads s))).

Definition withCards (f : gmap string Card.t -> gmap string Card.t)
  (s : State) : State :=
  mkState (f (cards s)) (chunks s) (views s) (nextId s) (clock s) (reads s).

Definition withChunks (f : gmap string Chunk.t -> gmap string Chunk.t)
  (s : State) : State :=
  mkState (cards s) (f (chunks s)) (views s) (nextId s) (clock s) (reads s).

Definition withViews (f : gmap string View.t -> gmap string View.t)
  (s : State) : State :=
  mkState (cards s) (chunks s) (f (views s)) (nextId s) (clock s) (reads s).

(** The template [card_${n}_${t}]. *)
Definition idOf (n : nat) (t : Z) : string :=
  "card_" +:+ pretty n +:+ "_" +:+ pretty t.

(** [generateId]: the counter is read, then incremented, then the clock
    is read. *)
Definition generateId (s : State) : string * State :=
  let n := nextId s in
  let s1 :=
    mkState (cards s) (chunks s) (views s) (S n) (clock s) (reads s) in
  let (t, s2) := tick s1 in
  (idOf n t, s2).

Definition defaultPosition : Position.t := Position.mk 0 0 200 150 None.

Definition defaultLayout : Layout.t :=
  Layout.mk grid (Some 3) (Some 10) (Some true).

Definition createCard (content : string) (title : option string)
  (tags : option (list string)) (position : option Position.t)
  (s : State) : Card.t * State :=
  let (id, s1) := generateId s in
  let (now, s2) := tick s1 in
  let finalTitle :=
    if truthy title then default EmptyString title
    else "Card " +:+ pretty (nextId s2) in
  let finalPosition := default defaultPosition position in
  let card :=
    Card.mk id finalTitle content (default [] tags) draft
      [Entry.mk now content None create] finalPosition
      (Meta.mk (InMemory.countWords content) now now None None None) in
  (card, withCards (insert id card) s2).

(** [this.cards.get(id) || null] *)
Definition getCard (id : string) (s : State) : option Card.t :=
  cards s !! id.

(** [{ ...card.metadata, ...updates.metadata, updatedAt: now }] *)
Definition spreadMetadata (old : Meta.t) (patch : option Meta.t) (now : Z)
  : Meta.t :=
  match patch with
  | None =>
      Meta.mk (Meta.wordCount old) (Meta.createdAt old) now
              (Meta.chunkId old) (Meta.color old) (Meta.priority old)
  | Some m =>
      Meta.mk (Meta.wordCount m) (Meta.createdAt m) now
              (match Meta.chunkId m with
               | Some v => Some v | None => Meta.chunkId old end)
              (match Meta.color m with
               | Some v => Some v | None => Meta.color old end)
              (match Meta.priority m with
               | Some v => Some v | None => Meta.priority old end)
  end.

Definition updateCard (id : string) (updates : CardPatch.t) (s : State)
  : Result Card.t * State :=
  match cards s !! id with
  | None => (Err (CardNotFound id), s)
  | Some card =>
      let (now, s1) := tick s in
      let metadata :=
        spreadMetadata (Card.metadata card) (CardPatch.metadata updates)
          now in
      let updatedCard := spreadCard card updates metadata in
      let updatedCard :=
        match CardPatch.content updates with
        | Some c =>
            if negb (Text.isEmpty c)
               && negb (String.eqb c (Card.content card))
            then
              Card.mk (Card.id updatedCard) (Card.title updatedCard)
                (Card.content updatedCard) (Card.tags updatedCard)
                (Card.status updatedCard)
                (Card.history card ++ [Entry.mk now c None edit])
                (Card.position updatedCard)
                (Meta.mk (InMemory.countWords c) (Meta.createdAt metadata)
                   (Meta.updatedAt metadata) (Meta.chunkId metadata)
                   (Meta.color metadata) (Meta.priority metadata))
            else updatedCard
        | None => updatedCard
        end in
      (Ok updatedCard, withCards (insert id updatedCard) s1)
  end.

(** [this.cards.delete(id)] *)
Definition deleteCard (id : string) (s : State) : bool * State :=
  match cards s !! id with
  | Some _ => (true, withCards (delete id) s)
  | None => (false, s)
  end.

Definition updatePosition (id : string) (position : Position.t)
  (s : State) : Result Card.t * State :=
  match cards s !! id with
  | None => (Err (CardNotFound id), s)
  | Some card =>
      let (now, s1) := tick s in
      let m := Card.metadata card in
      let updatedCard :=
        Card.mk (Card.id card) (Card.title card) (Card.content card)
          (Card.tags card) (Card.status card) (Card.history card) position
          (Meta.mk (Meta.wordCount m) (Meta.createdAt m) now
             (Meta.chunkId m) (Meta.color m) (Meta.priority m)) in
      (Ok updatedCard, withCards (insert id updatedCard) s1)
  end.

Definition createChunk (name : string) (cardIds : option (list string))
  (purpose : option string) (s : State) : Chunk.t * State :=
  let (id, s1) := generateId s in
  let chunk :=
    Chunk.mk id name (default [] cardIds) (default "general" purpose)
      defaultLayout in
  (chunk, withChunks (insert id chunk) s1).

Definition updateChunk (chunkId : string) (updates : ChunkPatch.t)
  (s : State) : Result Chunk.t * State :=
  match chunks s !! chunkId with
  | None => (Err (ChunkNotFound chunkId), s)
  | Some chunk =>
      let updatedChunk := spreadChunk chunk updates in
      (Ok updatedChunk, withChunks (insert chunkId updatedChunk) s)
  end.

Definition deleteChunk (chunkId : string) (s : State) : bool * State :=
  match chunks s !! chunkId with
  | Some _ => (true, withChunks (delete chunkId) s)
  | None => (false, s)
  end.

Definition createView (name : string) (description : option string)
  (chunkIds : option (list string)) (s : State) : View.t * State :=
  let (id, s1) := generateId s in
  let view :=
    View.mk id name (Some (default EmptyString description))
      (default [] chunkIds) 1 0 0 true false (Some byNone) in
  (view, withViews (insert id view) s1).

Definition deleteView (viewId : string) (s : State) : bool * State :=
  match views s !! viewId with
  | Some _ => (true, withViews (delete viewId) s)
  | None => (false, s)
  end.

Definition getView (viewId : string) (s : State) : option View.t :=
  views s !! viewId.

(** The [forEach] of [importTextAsCards] from the zero-based [index]
    on; the ids are pushed in order. *)
Fixpoint importParagraphs (chunkName : string) (index : nat)
  (paragraphs : list string) (s : State) : list string * State :=
  match paragraphs with
  | [] => ([], s)
  | text :: rest =>
      let (card, s1) :=
        createCard (Text.trim text)
          (Some (chunkName +:+ " - Part " +:+ pretty (index + 1)%nat))
          (Some [chunkName; "imported"]) None s in
      let (ids, s2) := importParagraphs chunkName (S index) rest s1 in
      (Card.id card :: ids, s2)
  end.

Definition importTextAsCards (text chunkName : string) (s : State)
  : Chunk.t * State :=
  let paragraphs :=
    filter (fun p => (0 <? String.length (Text.trim p))%nat)
      (Text.splitBlankLines text) in
  let (cardIds, s1) := importParagraphs chunkName 0 paragraphs s in
  createChunk chunkName (Some cardIds) (Some "imported-text") s1.

Definition exportChunkAsText (chunkId : string) (s : State) : string :=
  match chunks s !! chunkId with
  | None => EmptyString
  | Some chunk =>
      Text.join Text.blankLine
        (map Card.content (omap (fun id => getCard id s) (Chunk.cardIds chunk)))
  end.

(** The error of [CardboardService.exportViewAsText]:
    [View with id ... not found]. *)
Inductive ServiceError := ViewNotFound (id : string).

(** The loop of [exportViewAsText]:
    [exportText += chunkText + "\n\n"]. *)
Fixpoint appendChunks (exportText : string) (chunkIds : list string)
  (s : State) : string :=
  match chunkIds with
  | [] => exportText
  | chunkId :: rest =>
      appendChunks
        (exportText +:+ exportChunkAsText chunkId s +:+ Text.blankLine)
        rest s
  end.

(** [CardboardService.exportViewAsText] on the manager of a workspace. *)
Definition exportViewAsText (viewId : string) (s : State)
  : ServiceError + string :=
  match getView viewId s with
  | None => inl (ViewNotFound viewId)
  | Some view =>
      inr (Text.trim (appendChunks EmptyString (View.chunkIds view) s))
  end.

End Memory.

(** ** Vocabulary of the statements *)

(** A string that is empty or starts with a character outside the
    white space. *)
Definition startsClean (s : string) : Prop :=
  match s with
  | EmptyString => True
  | String c _ => Text.isWhiteSpace c = false
  end.

(** Every piece is non-empty. *)
Definition allWords (pieces : list string) : Prop :=
  Forall (fun p => Text.isEmpty p = false) pieces.

(** A string made of white space only (the empty string included). *)
Fixpoint onlyWhiteSpace (s : string) : bool :=
  match s with
  | EmptyString => true
  | String c s' => Text.isWhiteSpace c && onlyWhiteSpace s'
  end.

(** The number of non-empty pieces between the white space runs of the
    trimmed input. *)
Definition wordTokens (s : string) : list string :=
  filter (fun p => Text.isEmpty p = false)
    (Text.splitRuns Text.isWhiteSpace (Text.trim s)).

(** Every character of [s] passes the test [p]. *)
Fixpoint allChars (p : ascii -> bool) (s : string) : bool :=
  match s with
  | EmptyString => true
  | String c s' => p c && allChars p s'
  end.

(** A character that [sanitizeFilename] leaves alone: neither in the
    forbidden class, nor white space, nor a capital letter. *)
Definition isSafeFileChar (c : ascii) : bool :=
  negb (Text.isInvalidFileChar c) && negb (Text.isWhiteSpace c)
  && Ascii.eqb (Text.toLowerChar c) c.

Definition notLineFeed (c : ascii) : bool := negb (Ascii.eqb c Text.LF).

(** ** Vocabulary about the store *)

(** Two versions of a card that differ at most in the position and in
    [metadata.updatedAt]. *)
Definition samePayload (c c' : Card.t) : Prop :=
  Card.id c' = Card.id c
  /\ Card.title c' = Card.title c
  /\ Card.content c' = Card.content c
  /\ Card.tags c' = Card.tags c
  /\ Card.status c' = Card.status c
  /\ Card.history c' = Card.history c
  /\ Meta.wordCount (Card.metadata c') = Meta.wordCount (Card.metadata c)
  /\ Meta.createdAt (Card.metadata c') = Meta.createdAt (Card.metadata c)
  /\ Meta.chunkId (Card.metadata c') = Meta.chunkId (Card.metadata c)
  /\ Meta.color (Card.metadata c') = Meta.color (Card.metadata c)
  /\ Meta.priority (Card.metadata c') = Meta.priority (Card.metadata c).

(** Two card directories with the same file names whose documents
    differ at most in the position and in [metadata.updatedAt]. *)
Definition sameDocuments (m m' : gmap string Card.t) : Prop :=
  forall k,
    match m !! k, m' !! k with
    | Some c, Some c' => samePayload c c'
    | None, None => True
    | _, _ => False
    end.

(** The identifiers that [randomUUID] returns for the next [n] calls. *)
Definition nextIds (w : World) (n : nat) : list string :=
  map (randomUUID w) (seq (issued w) n).


(** Every card document sits in the file named after its own [id], as
    [saveCard] writes it. *)
Definition storeWf (w : World) : Prop :=
  forall k card, cardsDir w !! k = Some card -> Card.id card = k.

(** The history is not empty and its last entry records the current
    content. *)
Definition historyOk (card : Card.t) : Prop :=
  exists e, last (Card.history card) = Some e
            /\ Entry.content e = Card.content card.

(** The ids that resolve to a stored card, in the given order. *)
Definition validIds (w : World) (cardIds : list string) : list string :=
  filter (fun k => is_Some (cardsDir w !! k)) cardIds.

(** The test [updates.content && updates.content !== card.content]. *)
Definition contentChanged (card : Card.t) (updates : CardPatch.t) : bool :=
  match CardPatch.content updates with
  | Some c => negb (Text.isEmpty c) && negb (String.eqb c (Card.content card))
  | None => false
  end.

(** The card that [updateCard] builds from the stored [card] in [w]. *)
Definition editedCard (w : World) (card : Card.t) (updates : CardPatch.t)
  : Card.t :=
  let base :=
    spreadCard card updates
      (spreadMetadata (Card.metadata card) (CardPatch.metadata updates)
         (clock w (reads w))
         (if truthy (CardPatch.content updates)
          then Text.countWords
                 (default EmptyString (CardPatch.content updates))
          else Meta.wordCount (Card.metadata card))) in
  if contentChanged card updates then
    Card.mk (Card.id base) (Card.title base) (Card.content base)
      (Card.tags base) (Card.status base)
      (Card.history card
       ++ [Entry.mk (clock w (S (reads w))) (Card.content base) None edit])
      (Card.position base) (Card.metadata base)
  else base.

(** The clock readings that [updateCard] takes. *)
Definition editReads (card : Card.t) (updates : CardPatch.t) : nat :=
  if contentChanged card updates then 2%nat else 1%nat.

(** The world after [n] more clock readings and the save of [card]. *)
Definition savedWorld (w : World) (n : nat) (card : Card.t) : World :=
  mkWorld (<[Card.id card := card]> (cardsDir w)) (chunksDir w)
          (randomUUID w) (issued w) (clock w) (n + reads w).

(** The card that [createCard] builds in [w]. *)
Definition createdCard (w : World) (content : string)
  (title : option string) (tags : option (list string))
  (position : option Position.t) : Card.t :=
  Card.mk (randomUUID w (issued w))
    (if truthy title then default EmptyString title
     else Text.extractTitle content)
    content (default [] tags) draft
    [Entry.mk (clock w (reads w)) content None create]
    (default defaultPosition position)
    (Meta.mk (Text.countWords content) (clock w (S (reads w)))
       (clock w (S (S (reads w)))) None None None).

(** The world after [createCard]: one identifier issued, three clock
    readings, the card saved. *)
Definition createdWorld (w : World) (card : Card.t) : World :=
  mkWorld (<[Card.id card := card]> (cardsDir w)) (chunksDir w)
          (randomUUID w) (S (issued w)) (clock w) (3 + reads w).

(** The patches that [splitCard] and [mergeCards] hand to [updateCard]. *)
Definition contentPatch (content : string) (tags : option (list string))
  : CardPatch.t :=
  CardPatch.mk None (Some (Text.extractTitle content)) (Some content)
    tags None None None None.

(** The offset that [substring] really uses. *)
Definition clampOffset (content : string) (splitPoint : Z) : Z :=
  Z.min (Z.max splitPoint 0) (Z.of_nat (String.length content)).

(** Runs [m] and returns [b] when it succeeds. *)
Definition andThenReturn {A B} (m : M A) (b : B) : M B :=
  let* _ := m in ret b.

(** What [importTextAsCards] makes of one segment: a draft card without
    tags that holds the trimmed segment, with the title and the word
    count of that text and a one-entry history. *)
Definition importedFrom (segment : string) (c : Card.t) : Prop :=
  Card.content c = Text.trim segment
  /\ Card.title c = Text.extractTitle (Text.trim segment)
  /\ Card.tags c = []
  /\ Card.status c = draft
  /\ Meta.wordCount (Card.metadata c) = Text.countWords (Text.trim segment)
  /\ length (Card.history c) = 1%nat.

(** A decimal digit. *)
Definition isDigit (c : ascii) : bool :=
  let n := nat_of_ascii c in (48 <=? n)%nat && (n <=? 57)%nat.

(** A history entry without its time stamp. *)
Definition entryShape (e : Entry.t)
  : string * option string * ChangeType :=
  (Entry.content e, Entry.author e, Entry.changeType e).

(** ** Sample data for the closed statements *)

Definition sampleUUID (n : nat) : string := "uuid-" +:+ pretty n.

Definition sampleClock (n : nat) : Z := 1000 + Z.of_nat n.

Definition cardA : Card.t :=
  Card.mk "a" "Alpha" "hello world" ["x"; "y"] draft
    [Entry.mk 1 "hello world" None create]
    (Position.mk 5 7 250 200 None)
    (Meta.mk 2 1 1 None None None).

Definition cardB : Card.t :=
  Card.mk "b" "Beta" "second card" ["y"; "z"] draft
    [Entry.mk 2 "second card" None create]
    (Position.mk 400 7 250 200 None)
    (Meta.mk 2 2 2 None None None).

(** A card whose text starts with a space. *)
Definition cardC : Card.t :=
  Card.mk "c" "Gamma" " indented" [] draft
    [Entry.mk 3 " indented" None create]
    (Position.mk 9 9 250 200 None)
    (Meta.mk 1 3 3 None None None).

Definition cardD : Card.t :=
  Card.mk "d" "Delta" "fourth" [] draft
    [Entry.mk 4 "fourth" None create]
    (Position.mk 1 1 250 200 None)
    (Meta.mk 1 4 4 None None None).

Definition cardE : Card.t :=
  Card.mk "e" "Epsilon" "fifth" [] draft
    [Entry.mk 5 "fifth" None create]
    (Position.mk 2 2 250 200 None)
    (Meta.mk 1 5 5 None None None).

Definition chunkK : Chunk.t :=
  Chunk.mk "k" "Chapter" ["a"; "gone"; "b"] "general" defaultLayout.

Definition chunkC : Chunk.t :=
  Chunk.mk "kc" "Notes" ["c"] "general"
    (Layout.mk freeform None None None).

Definition sampleWorld : World :=
  mkWorld (<["a" := cardA]> (<["b" := cardB]> (<["c" := cardC]>
             (<["d" := cardD]> (<["e" := cardE]> ∅)))))
          (<["k" := chunkK]> (<["kc" := chunkC]> ∅))
          sampleUUID 0 sampleClock 0.

Definition sampleText : string :=
  "Para one." +:+ Text.blankLine +:+ " Para two. " +:+ Text.blankLine
  +:+ "Para three.".

Definition sampleState : Memory.State :=
  Memory.mkState (cardsDir sampleWorld) (chunksDir sampleWorld)
    (<["v" := View.mk "v" "Board" None ["k"; "nowhere"; "kc"] 1 0 0 true
                false None]> ∅)
    1 sampleClock 0.

(** The id and the position of the card at index [i] of a result. *)
Definition placedAt (r : Result (list Card.t)) (i : nat)
  : option (string * Position.t) :=
  match r with
  | Ok cards => c ← cards !! i; Some (Card.id c, Card.position c)
  | Err _ => None
  end.

(** A patch that only renames a chunk, and one that only sets a layout. *)
Definition renamePatch : ChunkPatch.t :=
  ChunkPatch.mk None (Some "Renamed") None None None.

Definition layoutPatch (l : Layout.t) : ChunkPatch.t :=
  ChunkPatch.mk None None None None (Some l).

(** The world after [createChunk] has drawn its id and saved [chunk]. *)
Definition chunkCreatedWorld (w : World) (chunk : Chunk.t) : World :=
  mkWorld (cardsDir w) (<[Chunk.id chunk := chunk]> (chunksDir w))
          (randomUUID w) (S (issued w)) (clock w) (reads w).

(** Unfolds the monad and the storage calls. *)
Ltac run :=
  unfold bind, ret, throw, newDate, generateCardId,
    Storage.saveCard, Storage.loadCard, Storage.deleteCard,
    Storage.saveChunk, Storage.loadChunk, withCards, withChunks; simpl.

(** * Theorems *)

Example countWords_two : Text.countWords "  hello   world " = 2.
Proof. reflexivity. Qed.

Example countWords_blank : Text.countWords "   " = 0.
Proof. reflexivity. Qed.

Example splitRuns_edges :
  Text.splitRuns Text.isWhiteSpace " a  b " = [EmptyString; "a"; "b"; EmptyString].
Proof. reflexivity. Qed.

Example extractTitle_short :
  Text.extractTitle ("  Hello there" +:+ Text.blankLine +:+ "second line")
  = "Hello there".
Proof. reflexivity. Qed.

Example extractTitle_blank : Text.extractTitle "   " = "Untitled Card".
Proof. reflexivity. Qed.

(** ** Facts about the text utilities *)

Lemma isEmpty_true s : Text.isEmpty s = true <-> s = EmptyString.
Proof. destruct s; simpl; split; congruence. Qed.

Lemma isEmpty_length s :
  (String.length s =? 0)%nat = Text.isEmpty s.
Proof. by destruct s. Qed.

Lemma nonEmpty_length s :
  (0 <? String.length s)%nat = negb (Text.isEmpty s).
Proof. by destruct s. Qed.

Lemma trimStart_clean s : startsClean (Text.trimStart s).
Proof.
  induction s as [|c s IH]; simpl; [done|].
  destruct (Text.isWhiteSpace c) eqn:E; [done|]. by simpl.
Qed.

Lemma trimEnd_idem s : Text.trimEnd (Text.trimEnd s) = Text.trimEnd s.
Proof.
  induction s as [|c s IH]; simpl; [done|].
  destruct (Text.isWhiteSpace c && Text.isEmpty (Text.trimEnd s)) eqn:E;
    simpl; [done|].
  by rewrite IH, E.
Qed.

Lemma trimEnd_clean s : startsClean s -> startsClean (Text.trimEnd s).
Proof.
  destruct s as [|c s]; simpl; [done|].
  intros Hc. rewrite Hc. done.
Qed.

Lemma trim_clean s : startsClean (Text.trim s).
Proof. apply trimEnd_clean, trimStart_clean. Qed.

Lemma trim_trimEnd s : Text.trimEnd (Text.trim s) = Text.trim s.
Proof. apply trimEnd_idem. Qed.

Lemma allWords_consHead c pieces :
  allWords (tail pieces) -> allWords (Text.consHead c pieces).
Proof.
  destruct pieces as [|p ps]; simpl; intros H; constructor; done.
Qed.

(** The pieces of a non-empty string without trailing white space: after
    a separator run all of them are words, and in any case all but the
    first one are. *)
Lemma splitRunsGo_words s :
  s <> EmptyString -> Text.trimEnd s = s ->
  allWords (Text.splitRunsGo Text.isWhiteSpace true s)
  /\ allWords (tail (Text.splitRunsGo Text.isWhiteSpace false s)).
Proof.
  induction s as [|c s IH]; [done|]. intros _ Hend.
  simpl in Hend.
  destruct (Text.isWhiteSpace c) eqn:Ec; simpl in Hend.
  - destruct (Text.isEmpty (Text.trimEnd s)) eqn:Ee; [done|].
    assert (Hs : Text.trimEnd s = s) by congruence.
    assert (Hne : s <> EmptyString).
    { intros ->. by simpl in Ee. }
    destruct (IH Hne Hs) as [IH1 IH2].
    simpl. rewrite Ec. simpl. done.
  - assert (Hs : Text.trimEnd s = s) by congruence.
    assert (Hcons : allWords
              (Text.consHead c (Text.splitRunsGo Text.isWhiteSpace false s))).
    { apply allWords_consHead.
      destruct s as [|c' s']; [by constructor|].
      by apply IH. }
    simpl. rewrite Ec. split; [done|].
    destruct (Text.splitRunsGo Text.isWhiteSpace false s);
      simpl in *; [constructor|].
    by inversion Hcons.
Qed.

Lemma splitRuns_words s :
  s <> EmptyString -> startsClean s -> Text.trimEnd s = s ->
  allWords (Text.splitRuns Text.isWhiteSpace s).
Proof.
  destruct s as [|c s]; [done|]. intros _ Hc Hend.
  simpl in Hc. unfold Text.splitRuns. simpl. rewrite Hc.
  apply allWords_consHead.
  simpl in Hend. rewrite Hc in Hend. simpl in Hend.
  assert (Hs : Text.trimEnd s = s) by congruence.
  destruct s as [|c' s']; [by constructor|].
  by apply splitRunsGo_words.
Qed.

Lemma filter_allWords pieces :
  allWords pieces ->
  filter (fun word => (0 <? String.length word)%nat) pieces = pieces.
Proof.
  induction 1 as [|p ps Hp _ IH]; [done|].
  rewrite filter_cons_True; [by rewrite IH|].
  rewrite nonEmpty_length, Hp. done.
Qed.

Lemma trim_whitespace_only s :
  Text.trim s = EmptyString ->
  Text.countWords s = 0 /\ InMemory.countWords s = 0.
Proof.
  intros H. unfold Text.countWords, InMemory.countWords.
  rewrite H. simpl. by rewrite orb_true_r.
Qed.

Lemma trim_onlyWhiteSpace s :
  Text.isEmpty (Text.trim s) = onlyWhiteSpace s.
Proof.
  induction s as [|c s IH]; [done|].
  unfold Text.trim in *. simpl.
  destruct (Text.isWhiteSpace c) eqn:Ec; [done|].
  simpl. by rewrite Ec.
Qed.

Lemma wordTokens_filter s :
  wordTokens s
  = filter (fun word => (0 <? String.length word)%nat)
      (Text.splitRuns Text.isWhiteSpace (Text.trim s)).
Proof.
  unfold wordTokens.
  induction (Text.splitRuns Text.isWhiteSpace (Text.trim s)) as [|p ps IH];
    [done|].
  rewrite !filter_cons, IH, nonEmpty_length.
  destruct (Text.isEmpty p); simpl; repeat case_decide; done.
Qed.

(** C10. The utility [countWords] and the private [countWords] of the
    in-memory manager return the same integer on every input: 0 when the
    input is empty or made of white space only, and otherwise the number
    of non-empty pieces that the white space runs cut out of the trimmed
    input. *)
Theorem countWords_variants_agree (s : string) :
  Text.countWords s = InMemory.countWords s
  /\ Text.countWords s
     = if onlyWhiteSpace s then 0 else Z.of_nat (length (wordTokens s)).
Proof.
  rewrite <- trim_onlyWhiteSpace.
  destruct (Text.isEmpty (Text.trim s)) eqn:Et.
  - apply isEmpty_true in Et.
    destruct (trim_whitespace_only s Et) as [H1 H2]. by rewrite H1, H2.
  - assert (Hne : Text.trim s <> EmptyString).
    { intros E. rewrite E in Et. done. }
    pose proof (splitRuns_words (Text.trim s) Hne (trim_clean s)
                  (trim_trimEnd s)) as Hall.
    unfold InMemory.countWords. rewrite wordTokens_filter.
    rewrite (filter_allWords _ Hall).
    unfold Text.countWords. rewrite isEmpty_length, Et, orb_false_r.
    destruct s as [|c s]; [done|]. done.
Qed.

(** ** Facts about [updateCard] *)

Lemma updateCard_stored w id card updates :
  cardsDir w !! id = Some card ->
  updateCard id updates w
  = (Ok (editedCard w card updates),
     savedWorld w (editReads card updates) (editedCard w card updates)).
Proof.
  intros Hid. unfold updateCard, editedCard, editReads, contentChanged,
    savedWorld.
  run. rewrite Hid. simpl.
  destruct (CardPatch.content updates) as [c|]; simpl; [|done].
  destruct (negb (Text.isEmpty c) && negb (String.eqb c (Card.content card)));
    simpl; done.
Qed.

Lemma updateCard_missing w id updates :
  cardsDir w !! id = None ->
  updateCard id updates w = (Err (CardNotFound id), w).
Proof. intros Hid. unfold updateCard. run. by rewrite Hid. Qed.

Lemma contentChanged_true card updates :
  contentChanged card updates = true <->
  exists c, CardPatch.content updates = Some c
            /\ c <> EmptyString /\ c <> Card.content card.
Proof.
  unfold contentChanged. split.
  - destruct (CardPatch.content updates) as [c|]; [|done].
    intros [H1 H2]%andb_true_iff. exists c. split; [done|].
    apply negb_true_iff in H1, H2. split.
    + intros ->. done.
    + intros ->. by rewrite String.eqb_refl in H2.
  - intros (c & -> & Hne & Hdiff). apply andb_true_iff. split.
    + destruct c; done.
    + apply negb_true_iff. by apply String.eqb_neq.
Qed.

Lemma editedCard_id w card updates :
  CardPatch.id updates = None ->
  Card.id (editedCard w card updates) = Card.id card.
Proof.
  intros H. unfold editedCard.
  destruct (contentChanged card updates); simpl; by rewrite H.
Qed.

Lemma editedCard_content w card updates :
  Card.content (editedCard w card updates)
  = default (Card.content card) (CardPatch.content updates).
Proof. unfold editedCard. by destruct (contentChanged card updates). Qed.

Lemma editedCard_tags w card updates :
  Card.tags (editedCard w card updates)
  = default (Card.tags card) (CardPatch.tags updates).
Proof. unfold editedCard. by destruct (contentChanged card updates). Qed.

Lemma editedCard_position w card updates :
  Card.position (editedCard w card updates)
  = default (Card.position card) (CardPatch.position updates).
Proof. unfold editedCard. by destruct (contentChanged card updates). Qed.

(** A patch with a new, non-empty content: one [edit] entry is appended
    and the words are counted again. *)
Lemma editedCard_changed w card updates c :
  CardPatch.content updates = Some c ->
  c <> EmptyString -> c <> Card.content card ->
  Card.content (editedCard w card updates) = c
  /\ Card.history (editedCard w card updates)
     = Card.history card ++ [Entry.mk (clock w (S (reads w))) c None edit]
  /\ Meta.wordCount (Card.metadata (editedCard w card updates))
     = Text.countWords c.
Proof.
  intros Hc Hne Hdiff.
  assert (Hch : contentChanged card updates = true).
  { apply contentChanged_true. eauto. }
  assert (Ht : truthy (CardPatch.content updates) = true).
  { rewrite Hc. by destruct c. }
  unfold editedCard. rewrite Hch, Ht. simpl. rewrite Hc. simpl.
  by destruct (CardPatch.metadata updates).
Qed.

Lemma editedCard_unchanged w card updates :
  contentChanged card updates = false ->
  Card.history (editedCard w card updates)
  = default (Card.history card) (CardPatch.history updates).
Proof. intros H. unfold editedCard. by rewrite H. Qed.

Lemma historyOk_push card e :
  Entry.content e = Card.content card ->
  historyOk (Card.pushHistory card e).
Proof.
  intros H. exists e. split; [|done].
  unfold Card.pushHistory. simpl. apply last_snoc.
Qed.

Lemma savedWorld_lookup w n card :
  cardsDir (savedWorld w n card) !! Card.id card = Some card.
Proof. unfold savedWorld. simpl. apply lookup_insert_eq. Qed.

Lemma updateCard_new_content w id card updates c :
  cardsDir w !! id = Some card ->
  CardPatch.content updates = Some c ->
  c <> EmptyString -> c <> Card.content card ->
  exists card' w',
    updateCard id updates w = (Ok card', w')
    /\ Card.content card' = c
    /\ Card.history card'
       = Card.history card ++ [Entry.mk (clock w (S (reads w))) c None edit]
    /\ length (Card.history card') = S (length (Card.history card))
    /\ Meta.wordCount (Card.metadata card') = Text.countWords c
    /\ cardsDir w' !! Card.id card' = Some card'.
Proof.
  intros Hid Hc Hne Hdiff.
  destruct (editedCard_changed w card updates c Hc Hne Hdiff)
    as (H1 & H2 & H3).
  eexists _, _. split; [by apply updateCard_stored|].
  repeat split; try done.
  - rewrite H2, length_app. simpl. lia.
  - apply savedWorld_lookup.
Qed.

(** ** Facts about [createCard] *)

Lemma createCard_run w content title tags position :
  createCard content title tags position w
  = (Ok (createdCard w content title tags position),
     createdWorld w (createdCard w content title tags position)).
Proof. reflexivity. Qed.

Lemma createdCard_historyOk w content title tags position :
  historyOk (createdCard w content title tags position).
Proof. eexists. split; [reflexivity|done]. Qed.

Lemma createdWorld_lookup w card :
  cardsDir (createdWorld w card) !! Card.id card = Some card.
Proof. unfold createdWorld. simpl. apply lookup_insert_eq. Qed.

(** ** Facts about strings *)

Lemma append_nonempty_r s t : t <> EmptyString -> s +:+ t <> EmptyString.
Proof. destruct s; simpl; [done|]. intros _. discriminate. Qed.

Lemma append_ne_self s t : t <> EmptyString -> s +:+ t <> s.
Proof.
  intros Ht. induction s as [|c s IH]; simpl; [done|].
  intros H. injection H. done.
Qed.

Lemma blankLine_append_nonempty t : Text.blankLine +:+ t <> EmptyString.
Proof. discriminate. Qed.

Lemma substring_0_0 s : String.substring 0 0 s = EmptyString.
Proof. by destruct s. Qed.

Lemma substring_all s : String.substring 0 (String.length s) s = s.
Proof. induction s as [|c s IH]; simpl; [done|]. by rewrite IH. Qed.

Lemma substring_end s :
  String.substring (String.length s) 0 s = EmptyString.
Proof. induction s as [|c s IH]; simpl; done. Qed.

Lemma clampIndex_clampOffset s p :
  Text.clampIndex s (clampOffset s p) = Text.clampIndex s p.
Proof. unfold Text.clampIndex, clampOffset. f_equal. lia. Qed.

Lemma substring_clamp s p :
  Text.substring s 0 (clampOffset s p) = Text.substring s 0 p.
Proof. unfold Text.substring. by rewrite clampIndex_clampOffset. Qed.

Lemma substringFrom_clamp s p :
  Text.substringFrom s (clampOffset s p) = Text.substringFrom s p.
Proof.
  unfold Text.substringFrom, Text.substring.
  by rewrite clampIndex_clampOffset.
Qed.

Lemma substring_negative s p :
  p < 0 ->
  Text.substring s 0 p = EmptyString /\ Text.substringFrom s p = s.
Proof.
  intros Hp. unfold Text.substringFrom, Text.substring, Text.clampIndex.
  replace (Z.to_nat (Z.min (Z.max p 0) (Z.of_nat (String.length s))))
    with 0%nat by lia.
  replace (Z.to_nat (Z.min (Z.max 0 0) (Z.of_nat (String.length s))))
    with 0%nat by lia.
  replace (Z.to_nat
             (Z.min (Z.max (Z.of_nat (String.length s)) 0)
                (Z.of_nat (String.length s))))
    with (String.length s) by lia.
  simpl. rewrite substring_0_0. split; [done|].
  rewrite Nat.sub_0_r. apply substring_all.
Qed.

Lemma substring_beyond s p :
  Z.of_nat (String.length s) < p ->
  Text.substring s 0 p = s /\ Text.substringFrom s p = EmptyString.
Proof.
  intros Hp. unfold Text.substringFrom, Text.substring, Text.clampIndex.
  replace (Z.to_nat (Z.min (Z.max p 0) (Z.of_nat (String.length s))))
    with (String.length s) by lia.
  replace (Z.to_nat (Z.min (Z.max 0 0) (Z.of_nat (String.length s))))
    with 0%nat by lia.
  replace (Z.to_nat
             (Z.min (Z.max (Z.of_nat (String.length s)) 0)
                (Z.of_nat (String.length s))))
    with (String.length s) by lia.
  rewrite Nat.min_id, Nat.max_id, Nat.sub_diag, Nat.min_0_l, Nat.max_0_l.
  rewrite Nat.sub_0_r, substring_all, substring_end. done.
Qed.

(** ** Facts about [splitCard] and [mergeCards] *)

Lemma bind_ok {A B} (m : M A) (k : A -> M B) w a w' :
  m w = (Ok a, w') -> bind m k w = k a w'.
Proof. intros H. unfold bind. by rewrite H. Qed.

Lemma bind_err {A B} (m : M A) (k : A -> M B) w e w' :
  m w = (Err e, w') -> bind m k w = (Err e, w').
Proof. intros H. unfold bind. by rewrite H. Qed.

Lemma splitCard_stored w id card p :
  cardsDir w !! id = Some card ->
  let content1 := Text.trim (Text.substring (Card.content card) 0 p) in
  let content2 := Text.trim (Text.substringFrom (Card.content card) p) in
  let e1 := editedCard w card (contentPatch content1 None) in
  let w1 := savedWorld w (editReads card (contentPatch content1 None)) e1 in
  let n2 :=
    createdCard w1 content2 (Some (Text.extractTitle content2))
      (Some (Card.tags card))
      (Some (Position.mk
               (Position.x (Card.position card)
                + Position.width (Card.position card) + 20)
               (Position.y (Card.position card))
               (Position.width (Card.position card))
               (Position.height (Card.position card)) None)) in
  let w2 := createdWorld w1 n2 in
  let c1 :=
    Card.pushHistory e1 (Entry.mk (clock w2 (reads w2)) content1 None split) in
  let c2 :=
    Card.pushHistory n2
      (Entry.mk (clock w2 (S (reads w2))) content2 None split) in
  splitCard id p w
  = (Ok (c1, c2),
     mkWorld (<[Card.id c2 := c2]> (<[Card.id c1 := c1]> (cardsDir w2)))
             (chunksDir w) (randomUUID w) (S (issued w)) (clock w)
             (2 + reads w2)).
Proof.
  intros Hid. cbv zeta. unfold splitCard.
  rewrite (bind_ok _ _ w (Some card) w) by (unfold Storage.loadCard; by rewrite Hid).
  erewrite bind_ok by (by apply updateCard_stored).
  erewrite bind_ok by apply createCard_run.
  reflexivity.
Qed.

Lemma mergeCards_stored w id1 id2 card1 card2 :
  cardsDir w !! id1 = Some card1 ->
  cardsDir w !! id2 = Some card2 ->
  let mergedContent :=
    Card.content card1 +:+ Text.blankLine +:+ Card.content card2 in
  let patch :=
    contentPatch mergedContent
      (Some (dedup (Card.tags card1 ++ Card.tags card2))) in
  let e := editedCard w card1 patch in
  let w1 := savedWorld w 2 e in
  let c :=
    Card.pushHistory e
      (Entry.mk (clock w1 (reads w1)) mergedContent None merge) in
  exists w',
    mergeCards id1 id2 w = (Ok c, w')
    /\ cardsDir w'
       = delete id2 (<[Card.id c := c]> (<[Card.id e := e]> (cardsDir w))).
Proof.
  intros H1 H2. cbv zeta. unfold mergeCards.
  rewrite (bind_ok _ _ w (Some card1) w)
    by (unfold Storage.loadCard; by rewrite H1).
  rewrite (bind_ok _ _ w (Some card2) w)
    by (unfold Storage.loadCard; by rewrite H2).
  set (mergedContent :=
         Card.content card1 +:+ Text.blankLine +:+ Card.content card2).
  set (patch := CardPatch.mk _ _ _ _ _ _ _ _).
  assert (Hch : contentChanged card1 patch = true).
  { apply contentChanged_true. exists mergedContent. split; [done|]. split.
    - apply append_nonempty_r. discriminate.
    - apply append_ne_self. discriminate. }
  erewrite bind_ok by (by apply updateCard_stored).
  unfold editReads. rewrite Hch.
  unfold bind, newDate, Storage.saveCard, Storage.deleteCard, ret, withCards.
  simpl.
  match goal with
  | |- context [match ?m !! id2 with _ => _ end] =>
      destruct (m !! id2) eqn:Hdel
  end; simpl.
  - eexists. split; reflexivity.
  - eexists. split; [reflexivity|]. simpl. symmetry. by apply delete_id.
Qed.

Lemma editedCard_historyOk_changed w card updates :
  contentChanged card updates = true ->
  historyOk (editedCard w card updates).
Proof.
  intros Hch. unfold editedCard. rewrite Hch.
  eexists. split; [apply last_snoc|done].
Qed.

Lemma editedCard_historyOk_unchanged w card updates :
  CardPatch.history updates = None ->
  historyOk card ->
  CardPatch.content updates = None
  \/ CardPatch.content updates = Some (Card.content card) ->
  historyOk (editedCard w card updates).
Proof.
  intros Hh (e & Hlast & He) Hc.
  assert (Hch : contentChanged card updates = false).
  { unfold contentChanged. destruct Hc as [-> | ->]; [done|].
    by rewrite String.eqb_refl, andb_false_r. }
  exists e. rewrite editedCard_unchanged, editedCard_content, Hh by done.
  simpl. split; [done|].
  destruct Hc as [-> | ->]; done.
Qed.

Lemma editedCard_history_grows w card updates :
  CardPatch.history updates = None ->
  (length (Card.history card)
   <= length (Card.history (editedCard w card updates)))%nat.
Proof.
  intros Hh. unfold editedCard.
  destruct (contentChanged card updates); simpl.
  - rewrite length_app. lia.
  - rewrite Hh. simpl. lia.
Qed.

(** C1 (as amended). A split offset outside [0 .. content.length] is not
    rejected: [substring] clamps it, so the call returns exactly what the
    call at the clamped offset returns.  It succeeds, the original card
    is rewritten (its content becomes the trimmed prefix, empty for a
    negative offset, and its history gains a [split] entry) and a second
    card holding the trimmed suffix is created and saved. *)
Theorem splitCard_clamps_offset w id card p :
  cardsDir w !! id = Some card ->
  p < 0 \/ Z.of_nat (String.length (Card.content card)) < p ->
  splitCard id p w = splitCard id (clampOffset (Card.content card) p) w
  /\ exists c1 c2 w',
       splitCard id p w = (Ok (c1, c2), w')
       /\ (p < 0 ->
           Card.content c1 = EmptyString
           /\ Card.content c2 = Text.trim (Card.content card))
       /\ (Z.of_nat (String.length (Card.content card)) < p ->
           Card.content c1 = Text.trim (Card.content card)
           /\ Card.content c2 = EmptyString)
       /\ Card.id c1 = Card.id card
       /\ (exists t, last (Card.history c1)
                     = Some (Entry.mk t (Card.content c1) None split))
       /\ (length (Card.history card) < length (Card.history c1))%nat
       /\ cardsDir w' !! Card.id c2 = Some c2
       /\ (Card.id c1 <> Card.id c2 -> cardsDir w' !! Card.id c1 = Some c1).
Proof.
  intros Hid Hrange. split.
  - rewrite !(splitCard_stored w id card) by done. cbv zeta.
    by rewrite substring_clamp, substringFrom_clamp.
  - eexists _, _, _. split; [by apply splitCard_stored|].
    cbv zeta. simpl.
    rewrite !editedCard_content. simpl.
    split; [|split; [|split; [|split; [|split; [|split]]]]].
    + intros Hp. destruct (substring_negative (Card.content card) p Hp)
        as [-> ->]. done.
    + intros Hp. destruct (substring_beyond (Card.content card) p Hp)
        as [-> ->]. done.
    + by apply editedCard_id.
    + eexists. apply last_snoc.
    + rewrite length_app. simpl.
      pose proof (editedCard_history_grows w card
        (contentPatch
           (Text.trim (Text.substring (Card.content card) 0 p)) None)
        eq_refl).
      lia.
    + apply lookup_insert_eq.
    + intros Hne. rewrite lookup_insert_ne by (simpl in *; congruence).
      apply lookup_insert_eq.
Qed.

(** ** Facts about [dedup] *)

Lemma dedupGo_spec l : forall seen,
  (forall t, t ∈ dedupGo seen l <-> t ∈ l /\ t ∉ seen)
  /\ NoDup (dedupGo seen l).
Proof.
  induction l as [|a l IH]; intros seen; simpl.
  - split; [|constructor]. intros t. split.
    + intros H. by apply elem_of_nil in H.
    + intros [H _]. by apply elem_of_nil in H.
  - case_bool_decide as Ha.
    + destruct (IH seen) as [Hin Hnd]. split; [|done].
      intros t. rewrite Hin, elem_of_cons. split.
      * intros [? ?]. auto.
      * intros [[-> | ?] ?]; [done|auto].
    + destruct (IH (a :: seen)) as [Hin Hnd]. split.
      * intros t. rewrite !elem_of_cons, Hin, !elem_of_cons. split.
        -- intros [-> | [? Hn]]; [auto|]. split; [auto|].
           intros ?. apply Hn. auto.
        -- intros [[-> | ?] Hn]; [auto|].
           destruct (decide (t = a)) as [->|Hta]; [auto|].
           right. split; [done|]. intros [? | ?]; done.
      * constructor; [|done]. rewrite Hin, elem_of_cons.
        intros [_ Hn]. apply Hn. auto.
Qed.

Lemma dedup_elem_of l t : t ∈ dedup l <-> t ∈ l.
Proof.
  unfold dedup. destruct (dedupGo_spec l []) as [Hin _].
  rewrite Hin. split; [by intros [? _]|].
  intros H. split; [done|]. apply not_elem_of_nil.
Qed.

Lemma dedup_NoDup l : NoDup (dedup l).
Proof. unfold dedup. by destruct (dedupGo_spec l []). Qed.

(** ** The claims about [updateCard] and [mergeCards] *)

(** C3 (the code at the failing input). The stored card [a] reads
    [hello world]; a patch whose content is the empty string empties the
    content, but the update returns the old word count 2 and the old
    one-entry history: no [edit] entry is appended and the words are not
    counted again, although [countWords] of the empty string is 0. *)
Theorem updateCard_empty_content_keeps_history :
  exists card' w',
    updateCard "a"
      (CardPatch.mk None None (Some EmptyString) None None None None None)
      sampleWorld = (Ok card', w')
    /\ cardsDir sampleWorld !! "a" = Some cardA
    /\ Card.content cardA <> EmptyString
    /\ Card.content card' = EmptyString
    /\ Card.history card' = Card.history cardA
    /\ length (Card.history card') = 1%nat
    /\ Meta.wordCount (Card.metadata card') = 2
    /\ Text.countWords EmptyString = 0.
Proof.
  eexists _, _. split.
  - apply (updateCard_stored sampleWorld "a" cardA). reflexivity.
  - repeat split; try reflexivity. discriminate.
Qed.

(** C4. On a stored card the empty patch appends no history entry and
    changes nothing but [metadata.updatedAt], which receives the clock's
    current reading; the card is saved in that state. *)
Theorem updateCard_empty_patch w id card :
  cardsDir w !! id = Some card ->
  let m := Card.metadata card in
  let card' :=
    Card.mk (Card.id card) (Card.title card) (Card.content card)
      (Card.tags card) (Card.status card) (Card.history card)
      (Card.position card)
      (Meta.mk (Meta.wordCount m) (Meta.createdAt m) (clock w (reads w))
         (Meta.chunkId m) (Meta.color m) (Meta.priority m)) in
  updateCard id CardPatch.empty w
  = (Ok card',
     mkWorld (<[Card.id card := card']> (cardsDir w)) (chunksDir w)
             (randomUUID w) (issued w) (clock w) (S (reads w))).
Proof.
  intros Hid. cbv zeta.
  rewrite (updateCard_stored w id card) by done. reflexivity.
Qed.

(** C8. For two stored cards under distinct ids, the first one stored
    under its own id, [mergeCards] returns a card with the first id, the
    two contents around one blank-line separator, and the tags of both
    without duplicates; afterwards the second document is gone and the
    first id holds the merged card. *)
Theorem mergeCards_distinct w idA idB cardA' cardB' :
  cardsDir w !! idA = Some cardA' ->
  cardsDir w !! idB = Some cardB' ->
  idA <> idB ->
  Card.id cardA' = idA ->
  exists c w',
    mergeCards idA idB w = (Ok c, w')
    /\ Card.id c = idA
    /\ Card.content c
       = Card.content cardA' +:+ Text.blankLine +:+ Card.content cardB'
    /\ NoDup (Card.tags c)
    /\ (forall t, t ∈ Card.tags c
                  <-> t ∈ Card.tags cardA' \/ t ∈ Card.tags cardB')
    /\ cardsDir w' !! idB = None
    /\ cardsDir w' !! idA = Some c.
Proof.
  intros HA HB Hne HidA.
  destruct (mergeCards_stored w idA idB cardA' cardB' HA HB) as (w' & Hrun & Hw').
  cbv zeta in *. eexists _, w'. split; [exact Hrun|].
  assert (Hid : Card.id
            (editedCard w cardA'
               (contentPatch
                  (Card.content cardA' +:+ Text.blankLine +:+ Card.content cardB')
                  (Some (dedup (Card.tags cardA' ++ Card.tags cardB')))))
          = idA).
  { rewrite editedCard_id; done. }
  simpl. rewrite editedCard_content, editedCard_tags. simpl.
  repeat split.
  - done.
  - apply dedup_NoDup.
  - rewrite dedup_elem_of, elem_of_app. done.
  - rewrite dedup_elem_of, elem_of_app. done.
  - rewrite Hw'. apply lookup_delete_eq.
  - rewrite Hw'. simpl. rewrite Hid.
    rewrite lookup_delete_ne by done. apply lookup_insert_eq.
Qed.

(** C9. Merging a stored card with itself returns a card whose content
    is the original content twice around the blank-line separator, and
    afterwards no document is stored under that id. *)
Theorem mergeCards_same_id w id card :
  cardsDir w !! id = Some card ->
  exists c w',
    mergeCards id id w = (Ok c, w')
    /\ Card.content c
       = Card.content card +:+ Text.blankLine +:+ Card.content card
    /\ cardsDir w' !! id = None.
Proof.
  intros Hid.
  destruct (mergeCards_stored w id id card card Hid Hid) as (w' & Hrun & Hw').
  cbv zeta in *. eexists _, w'. split; [exact Hrun|].
  simpl. rewrite editedCard_content. simpl. split; [done|].
  rewrite Hw'. apply lookup_delete_eq.
Qed.

(** C2 (as amended). Once [createCard], [splitCard] or [mergeCards]
    returns, every card it returns has a non-empty history whose last
    entry records the card's content.  Once [updateCard] returns, the
    same holds when the patch carries a non-empty content that differs
    from the stored one, and also when the patch has no [history] field,
    leaves the content as it is (absent or equal) and the stored card
    already had the property.  The returned cards are the saved ones. *)
Theorem history_tracks_content (w : World) :
  (forall content title tags position,
     exists c w',
       createCard content title tags position w = (Ok c, w')
       /\ historyOk c
       /\ cardsDir w' !! Card.id c = Some c)
  /\ (forall id card updates,
        cardsDir w !! id = Some card ->
        (exists c2, CardPatch.content updates = Some c2
                    /\ c2 <> EmptyString /\ c2 <> Card.content card)
        \/ (CardPatch.history updates = None
            /\ historyOk card
            /\ (CardPatch.content updates = None
                \/ CardPatch.content updates = Some (Card.content card))) ->
        exists c w',
          updateCard id updates w = (Ok c, w')
          /\ historyOk c
          /\ cardsDir w' !! Card.id c = Some c)
  /\ (forall id card splitPoint,
        cardsDir w !! id = Some card ->
        exists c1 c2 w',
          splitCard id splitPoint w = (Ok (c1, c2), w')
          /\ historyOk c1 /\ historyOk c2
          /\ cardsDir w' !! Card.id c2 = Some c2
          /\ (Card.id c1 <> Card.id c2 ->
              cardsDir w' !! Card.id c1 = Some c1))
  /\ (forall id1 id2 card1 card2,
        cardsDir w !! id1 = Some card1 ->
        cardsDir w !! id2 = Some card2 ->
        exists c w',
          mergeCards id1 id2 w = (Ok c, w')
          /\ historyOk c
          /\ (Card.id c <> id2 -> cardsDir w' !! Card.id c = Some c)).
Proof.
  split; [|split; [|split]].
  - intros content title tags position. eexists _, _.
    split; [apply createCard_run|]. split.
    + apply createdCard_historyOk.
    + apply createdWorld_lookup.
  - intros id card updates Hid Hcase. eexists _, _.
    split; [by apply updateCard_stored|]. split.
    + destruct Hcase as [Hnew | (Hh & Hok & Hc)].
      * apply editedCard_historyOk_changed, contentChanged_true. done.
      * by apply editedCard_historyOk_unchanged.
    + apply savedWorld_lookup.
  - intros id card p Hid. eexists _, _, _.
    split; [by apply splitCard_stored|]. cbv zeta.
    split; [|split; [|split]].
    + apply historyOk_push. simpl. by rewrite editedCard_content.
    + apply historyOk_push. done.
    + apply lookup_insert_eq.
    + intros Hne. simpl.
      rewrite lookup_insert_ne by (simpl in *; congruence).
      apply lookup_insert_eq.
  - intros id1 id2 card1 card2 H1 H2.
    destruct (mergeCards_stored w id1 id2 card1 card2 H1 H2)
      as (w' & Hrun & Hw').
    cbv zeta in *. eexists _, w'. split; [exact Hrun|]. split.
    + apply historyOk_push. simpl. by rewrite editedCard_content.
    + intros Hne. rewrite Hw'. rewrite lookup_delete_ne by congruence.
      apply lookup_insert_eq.
Qed.

(** ** [exportChunkAsText] *)

Lemma join_cons_cons sep p q ps :
  Text.join sep (p :: q :: ps) = p +:+ sep +:+ Text.join sep (q :: ps).
Proof. reflexivity. Qed.

(** C5 (as amended). For a stored chunk [exportChunkAsText] resolves
    [cardIds] in their order, drops the ids without a stored card, and
    returns the contents of the others joined by one blank-line
    separator, as they are: the result is not trimmed.  For an absent
    chunk it fails with the chunk-not-found error.  The store is left
    as it was. *)
Theorem exportChunkAsText_joins_untrimmed w chunkId :
  match chunksDir w !! chunkId with
  | Some chunk =>
      exportChunkAsText chunkId w
      = (Ok (Text.join Text.blankLine
               (map Card.content
                  (omap (fun id => cardsDir w !! id) (Chunk.cardIds chunk)))),
         w)
  | None => exportChunkAsText chunkId w = (Err (ChunkNotFound chunkId), w)
  end.
Proof.
  unfold exportChunkAsText, bind, Storage.loadChunk, loadValidCards, ret,
    throw.
  by destruct (chunksDir w !! chunkId).
Qed.

(** ** Facts about the store invariant *)

Lemma cardsWf_insert (m : gmap string Card.t) card :
  (forall k c, m !! k = Some c -> Card.id c = k) ->
  forall k c, <[Card.id card := card]> m !! k = Some c -> Card.id c = k.
Proof.
  intros Hm k c H. apply lookup_insert_Some in H as [[<- <-] | [_ H]];
    [done|by apply Hm].
Qed.

Lemma cardsWf_delete (m : gmap string Card.t) id :
  (forall k c, m !! k = Some c -> Card.id c = k) ->
  forall k c, delete id m !! k = Some c -> Card.id c = k.
Proof.
  intros Hm k c H. apply lookup_delete_Some in H as [_ H]. by apply Hm.
Qed.

Lemma storeWf_saved w n card : storeWf w -> storeWf (savedWorld w n card).
Proof. intros Hw. unfold storeWf, savedWorld. simpl. by apply cardsWf_insert. Qed.

Lemma storeWf_created w card : storeWf w -> storeWf (createdWorld w card).
Proof.
  intros Hw. unfold storeWf, createdWorld. simpl. by apply cardsWf_insert.
Qed.

Lemma sampleWorld_wf : storeWf sampleWorld.
Proof.
  unfold storeWf, sampleWorld. simpl.
  apply (cardsWf_insert _ cardA), (cardsWf_insert _ cardB),
    (cardsWf_insert _ cardC), (cardsWf_insert _ cardD),
    (cardsWf_insert _ cardE).
  intros k c H. by rewrite lookup_empty in H.
Qed.

(** ** Facts about [autoArrangeCards] *)

Lemma updateCardPosition_stored w id card position :
  cardsDir w !! id = Some card ->
  exists card',
    updateCardPosition id position w = (Ok card', savedWorld w 1 card')
    /\ Card.id card' = Card.id card
    /\ Card.position card' = position.
Proof.
  intros Hid. unfold updateCardPosition.
  eexists. split; [by apply (updateCard_stored w id card)|].
  split; [by apply editedCard_id|]. by rewrite editedCard_position.
Qed.

Lemma validCards_ids w cardIds :
  storeWf w ->
  map Card.id (omap (fun id => cardsDir w !! id) cardIds)
  = validIds w cardIds.
Proof.
  intros Hw. unfold validIds.
  induction cardIds as [|k ks IH]; [done|].
  simpl. destruct (cardsDir w !! k) as [c|] eqn:Hk; simpl.
  - rewrite filter_cons_True by (rewrite Hk; eauto).
    f_equal; [by apply Hw|exact IH].
  - rewrite filter_cons_False; [done|]. rewrite Hk. by intros [? ?].
Qed.

Lemma validCards_stored w (cardIds : list string) c :
  storeWf w ->
  c ∈ omap (fun id => cardsDir w !! id) cardIds ->
  is_Some (cardsDir w !! Card.id c).
Proof.
  intros Hw (k & _ & Hk)%list_elem_of_omap.
  rewrite (Hw k c Hk). eauto.
Qed.

Lemma arrangeFrom_spec place cs : forall i w,
  storeWf w ->
  (forall c, c ∈ cs -> is_Some (cardsDir w !! Card.id c)) ->
  exists cs' w',
    arrangeFrom place i cs w = (Ok cs', w')
    /\ storeWf w'
    /\ map Card.id cs' = map Card.id cs
    /\ (forall (n : nat) c,
          cs' !! n = Some c -> Card.position c = place (i + Z.of_nat n))
    /\ (forall k, k ∉ map Card.id cs -> cardsDir w' !! k = cardsDir w !! k)
    /\ (forall k, is_Some (cardsDir w !! k) -> is_Some (cardsDir w' !! k))
    /\ (forall (n : nat) c,
          cs' !! n = Some c ->
          (forall (j : nat) c2,
             (n < j)%nat -> cs' !! j = Some c2 -> Card.id c2 <> Card.id c) ->
          cardsDir w' !! Card.id c = Some c).
Proof.
  induction cs as [|c rest IH]; intros i w Hw Hkeys.
  - exists [], w. simpl. repeat split; try done.
  - destruct (Hkeys c) as [c0 Hc0]; [by left|].
    destruct (updateCardPosition_stored w (Card.id c) c0 (place i) Hc0)
      as (c' & Hrun & Hid' & Hpos').
    assert (Hidc : Card.id c' = Card.id c).
    { rewrite Hid'. by apply Hw. }
    set (w1 := savedWorld w 1 c') in *.
    assert (Hw1 : storeWf w1) by by apply storeWf_saved.
    assert (Hdom1 : forall k,
              is_Some (cardsDir w !! k) -> is_Some (cardsDir w1 !! k)).
    { intros k Hk. unfold w1, savedWorld. simpl.
      destruct (decide (Card.id c' = k)) as [->|Hne].
      - rewrite lookup_insert_eq. eauto.
      - by rewrite lookup_insert_ne. }
    destruct (IH (i + 1) w1 Hw1) as (cs' & w' & Hrest & Hw' & Hids & Hposs
                                      & Hframe & Hdom & Hlast).
    { intros c2 Hc2. apply Hdom1, Hkeys. by right. }
    exists (c' :: cs'), w'. split.
    { simpl. erewrite bind_ok by exact Hrun.
      erewrite bind_ok by exact Hrest. done. }
    split; [done|]. split; [simpl; by rewrite Hidc, Hids|].
    split; [|split; [|split]].
    + intros [|n] c2 Hn; simpl in Hn.
      * injection Hn as <-. rewrite Hpos'. f_equal. lia.
      * rewrite (Hposs n c2 Hn). f_equal. lia.
    + intros k Hk. simpl in Hk. apply not_elem_of_cons in Hk as [Hk1 Hk2].
      rewrite Hframe by done. unfold w1, savedWorld. simpl.
      rewrite lookup_insert_ne; [done|congruence].
    + intros k Hk. by apply Hdom, Hdom1.
    + intros [|n] c2 Hn Hlater; simpl in Hn.
      * injection Hn as <-. rewrite Hframe.
        -- unfold w1. apply savedWorld_lookup.
        -- rewrite <- Hids. intros (c3 & Heq & Hin)%list_elem_of_fmap.
           apply list_elem_of_lookup in Hin as [j Hj].
           apply (Hlater (S j) c3); [lia|done|done].
      * apply (Hlast n c2 Hn). intros j c3 Hj Hc3.
        apply (Hlater (S j) c3); [lia|done].
Qed.

(** C6 (as amended). On a store whose documents sit under their own ids,
    and for a grid layout, [autoArrangeCards] succeeds and returns one
    card per id that resolves, in the order of [cardIds]; the card at
    zero-based index [i] gets [x = (i rem columns) * (250 + spacing)]
    and [y = floor(i / columns) * (200 + spacing)] with the footprint
    250 x 200.  Here [columns] is [layout.columns], or 3 when that is
    absent or 0, and [spacing] is [layout.spacing], or 20 when that is
    absent or 0: an explicit spacing of 0 is laid out with 20.  The
    remainder is the usual [mod] for positive [columns].  The card is
    saved in that state under its id unless the same id occurs again
    later in the list.  With three columns and the default spacing,
    index 3 gets [x = 0] and [y = 220]. *)
Theorem autoArrangeCards_grid w cardIds layout :
  storeWf w ->
  Layout.type layout = grid ->
  let columns :=
    match Layout.columns layout with
    | Some n => if n =? 0 then 3 else n
    | None => 3
    end in
  let spacing :=
    match Layout.spacing layout with
    | Some n => if n =? 0 then 20 else n
    | None => 20
    end in
  exists cards w',
    autoArrangeCards cardIds layout w = (Ok cards, w')
    /\ map Card.id cards = validIds w cardIds
    /\ (forall (i : nat) c,
          cards !! i = Some c ->
          Card.position c
          = Position.mk (Z.rem (Z.of_nat i) columns * (250 + spacing))
              (Z.of_nat i / columns * (200 + spacing)) 250 200 None)
    /\ (0 < columns ->
        forall i : nat, Z.rem (Z.of_nat i) columns = Z.of_nat i mod columns)
    /\ (forall (i : nat) c,
          cards !! i = Some c ->
          (forall (j : nat) c2,
             (i < j)%nat -> cards !! j = Some c2 -> Card.id c2 <> Card.id c) ->
          cardsDir w' !! Card.id c = Some c)
    /\ gridPosition (orDefault (Some 3) 3) (orDefault None 20) 3
       = Position.mk 0 220 250 200 None.
Proof.
  intros Hw Hgrid. cbv zeta.
  destruct (arrangeFrom_spec
              (gridPosition (orDefault (Layout.columns layout) 3)
                 (orDefault (Layout.spacing layout) 20))
              (omap (fun id => cardsDir w !! id) cardIds) 0 w Hw)
    as (cs' & w' & Hrun & _ & Hids & Hpos & _ & _ & Hlast).
  { intros c Hc. by apply (validCards_stored w cardIds). }
  exists cs', w'. split.
  { unfold autoArrangeCards. rewrite Hgrid.
    erewrite bind_ok by reflexivity. exact Hrun. }
  split; [by rewrite Hids, validCards_ids|].
  split; [|split; [|split; [exact Hlast|reflexivity]]].
  - intros i c Hi. rewrite (Hpos i c Hi). reflexivity.
  - intros Hcol i. apply Z.rem_mod_nonneg; lia.
Qed.

Example autoArrange_five_cards :
  placedAt
    (fst (autoArrangeCards ["a"; "b"; "c"; "d"; "e"]
            (Layout.mk grid (Some 3) None None) sampleWorld)) 3
  = Some ("d", Position.mk 0 220 250 200 None).
Proof. vm_compute. reflexivity. Qed.

Example autoArrange_zero_spacing :
  placedAt
    (fst (autoArrangeCards ["a"; "b"]
            (Layout.mk grid (Some 3) (Some 0) None) sampleWorld)) 1
  = Some ("b", Position.mk 270 0 250 200 None).
Proof. vm_compute. reflexivity. Qed.

Lemma autoArrangeCards_total w cardIds layout :
  storeWf w ->
  exists cards w', autoArrangeCards cardIds layout w = (Ok cards, w').
Proof.
  intros Hw. unfold autoArrangeCards.
  erewrite bind_ok by reflexivity.
  assert (Hkeys : forall c,
            c ∈ omap (fun id => cardsDir w !! id) cardIds ->
            is_Some (cardsDir w !! Card.id c)).
  { intros c Hc. by apply (validCards_stored w cardIds). }
  destruct (Layout.type layout).
  - destruct (arrangeFrom_spec
                (gridPosition (orDefault (Layout.columns layout) 3)
                   (orDefault (Layout.spacing layout) 20))
                _ 0 w Hw Hkeys) as (cs & w' & Hrun & _). eauto.
  - eexists _, _. reflexivity.
  - destruct (arrangeFrom_spec
                (linearPosition (orDefault (Layout.spacing layout) 20))
                _ 0 w Hw Hkeys) as (cs & w' & Hrun & _). eauto.
Qed.

(** ** The coupling between chunks and the layout *)

Lemma nonempty_length {A} (l : list A) :
  l <> [] -> (0 <? length l)%nat = true.
Proof. destruct l; [done|]. intros _. reflexivity. Qed.

(** C7 (as amended). [updateChunk] runs [autoArrangeCards] on the
    resulting [cardIds] with the resulting layout, after saving the chunk
    and before returning it, when the patch itself carries a layout whose
    [autoArrange] is true and the resulting [cardIds] is not empty.  A
    patch without a layout never triggers it, whatever the stored layout
    says: the chunk is saved and returned, and no card is touched.
    [createChunk] runs it when its layout (by default a grid of 3
    columns, spacing 20, [autoArrange] true) has [autoArrange] true and
    [cardIds] is not empty.  On a store whose cards sit under their own
    ids the triggered calls succeed. *)
Theorem chunk_autoArrange_trigger (w : World) :
  (forall id chunk updates l,
     chunksDir w !! id = Some chunk ->
     ChunkPatch.layout updates = Some l ->
     Layout.autoArrange l = Some true ->
     Chunk.cardIds (spreadChunk chunk updates) <> [] ->
     let updated := spreadChunk chunk updates in
     let saved := withChunks (insert (Chunk.id updated) updated) w in
     Chunk.layout updated = l
     /\ updateChunk id updates w
        = andThenReturn (autoArrangeCards (Chunk.cardIds updated) l)
            updated saved
     /\ (storeWf w ->
         exists w', updateChunk id updates w = (Ok updated, w')))
  /\ (forall id chunk updates,
        chunksDir w !! id = Some chunk ->
        ChunkPatch.layout updates = None ->
        let updated := spreadChunk chunk updates in
        updateChunk id updates w
        = (Ok updated, withChunks (insert (Chunk.id updated) updated) w))
  /\ (forall name cardIds purpose layout,
        let ids := default [] cardIds in
        let l := default defaultLayout layout in
        let chunk :=
          Chunk.mk (randomUUID w (issued w)) name ids
            (default "general" purpose) l in
        Layout.autoArrange l = Some true ->
        ids <> [] ->
        createChunk name cardIds purpose layout w
        = andThenReturn (autoArrangeCards ids l) chunk
            (chunkCreatedWorld w chunk)
        /\ (storeWf w ->
            exists w',
              createChunk name cardIds purpose layout w = (Ok chunk, w'))).
Proof.
  split; [|split].
  - intros id chunk updates l Hid Hl Hauto Hne. cbv zeta.
    assert (Hlay : Chunk.layout (spreadChunk chunk updates) = l).
    { unfold spreadChunk. simpl. by rewrite Hl. }
    assert (Hrun : updateChunk id updates w
                   = andThenReturn
                       (autoArrangeCards
                          (Chunk.cardIds (spreadChunk chunk updates)) l)
                       (spreadChunk chunk updates)
                       (withChunks
                          (insert (Chunk.id (spreadChunk chunk updates))
                             (spreadChunk chunk updates)) w)).
    { unfold updateChunk.
      rewrite (bind_ok _ _ w (Some chunk) w)
        by (unfold Storage.loadChunk; by rewrite Hid).
      erewrite bind_ok by reflexivity.
      rewrite Hl, Hlay.
      remember (spreadChunk chunk updates) as updated eqn:Hupd.
      simpl. rewrite Hauto. simpl.
      rewrite (nonempty_length _ Hne).
      unfold andThenReturn, bind, ret.
      destruct (autoArrangeCards _ l _) as [[cs|e] w']; done. }
    split; [done|]. split; [done|].
    intros Hw. rewrite Hrun. unfold andThenReturn.
    destruct (autoArrangeCards_total
                (withChunks
                   (insert (Chunk.id (spreadChunk chunk updates))
                      (spreadChunk chunk updates)) w)
                (Chunk.cardIds (spreadChunk chunk updates)) l)
      as (cs & w' & Hcs); [done|].
    exists w'. by erewrite bind_ok by exact Hcs.
  - intros id chunk updates Hid Hl. cbv zeta. unfold updateChunk.
    rewrite (bind_ok _ _ w (Some chunk) w)
      by (unfold Storage.loadChunk; by rewrite Hid).
    erewrite bind_ok by reflexivity.
    rewrite Hl. reflexivity.
  - intros name cardIds purpose layout. cbv zeta. intros Hauto Hne.
    assert (Hrun : createChunk name cardIds purpose layout w
                   = andThenReturn
                       (autoArrangeCards (default [] cardIds)
                          (default defaultLayout layout))
                       (Chunk.mk (randomUUID w (issued w)) name
                          (default [] cardIds) (default "general" purpose)
                          (default defaultLayout layout))
                       (chunkCreatedWorld w
                          (Chunk.mk (randomUUID w (issued w)) name
                             (default [] cardIds)
                             (default "general" purpose)
                             (default defaultLayout layout)))).
    { unfold createChunk.
      erewrite bind_ok by reflexivity.
      erewrite bind_ok by reflexivity.
      rewrite Hauto.
      remember (default [] cardIds) as ids eqn:Hids.
      remember (default defaultLayout layout) as l eqn:Hlayout.
      simpl. rewrite (nonempty_length _ Hne).
      unfold andThenReturn, bind, ret, chunkCreatedWorld. simpl.
      destruct (autoArrangeCards _ _ _) as [[cs|e] w']; done. }
    split; [done|].
    intros Hw. rewrite Hrun. unfold andThenReturn.
    destruct (autoArrangeCards_total
                (chunkCreatedWorld w
                   (Chunk.mk (randomUUID w (issued w)) name
                      (default [] cardIds) (default "general" purpose)
                      (default defaultLayout layout)))
                (default [] cardIds) (default defaultLayout layout))
      as (cs & w' & Hcs); [done|].
    exists w'. by erewrite bind_ok by exact Hcs.
Qed.

(** ** The claims at the sample data *)

Example exportChunk_skips_missing :
  fst (exportChunkAsText "k" sampleWorld)
  = Ok ("hello world" +:+ Text.blankLine +:+ "second card").
Proof. vm_compute. reflexivity. Qed.

(** C1 as stated fails: the stored card [a] is split at offset -1; the
    call returns a pair instead of failing, and the document stored
    under [a] is no longer the original card. *)
Lemma splitCard_negative_offset_counterexample :
  cardsDir sampleWorld !! "a" = Some cardA
  /\ -1 < 0
  /\ (forall e, fst (splitCard "a" (-1) sampleWorld) <> Err e)
  /\ cardsDir (snd (splitCard "a" (-1) sampleWorld)) !! "a" <> Some cardA.
Proof.
  split; [reflexivity|]. split; [lia|]. split.
  - intros e H. vm_compute in H. discriminate.
  - intros H. vm_compute in H. discriminate.
Qed.

Lemma splitCard_clamps_offset_witness :
  cardsDir sampleWorld !! "a" = Some cardA
  /\ -1 < 0
  /\ splitCard "a" (-1) sampleWorld
     = splitCard "a" (clampOffset (Card.content cardA) (-1)) sampleWorld.
Proof.
  split; [reflexivity|]. split; [lia|].
  apply (proj1 (splitCard_clamps_offset sampleWorld "a" cardA (-1)
                  eq_refl (or_introl eq_refl))).
Defined.

(** C2 as stated fails: a patch that carries an empty [history] is
    merged as it is, so the updated card, returned and saved, has no
    history entry at all. *)
Lemma updateCard_history_patch_counterexample :
  exists c,
    fst (updateCard "a"
           (CardPatch.mk None None None None None (Some []) None None)
           sampleWorld) = Ok c
    /\ Card.history c = []
    /\ ~ historyOk c
    /\ cardsDir
         (snd (updateCard "a"
                 (CardPatch.mk None None None None None (Some []) None None)
                 sampleWorld)) !! "a" = Some c.
Proof.
  eexists. split; [reflexivity|]. split; [reflexivity|]. split.
  - intros (e & He & _). discriminate.
  - reflexivity.
Qed.

Lemma history_tracks_content_witness :
  cardsDir sampleWorld !! "a" = Some cardA
  /\ exists c w',
       updateCard "a"
         (CardPatch.mk None None (Some "new text") None None None None None)
         sampleWorld = (Ok c, w')
       /\ historyOk c
       /\ cardsDir w' !! Card.id c = Some c.
Proof.
  split; [reflexivity|].
  apply (proj1 (proj2 (history_tracks_content sampleWorld)) "a" cardA
           (CardPatch.mk None None (Some "new text") None None None None None)
           eq_refl).
  left. exists "new text". split; [reflexivity|]. split; discriminate.
Defined.

Lemma updateCard_empty_patch_witness :
  cardsDir sampleWorld !! "a" = Some cardA
  /\ fst (updateCard "a" CardPatch.empty sampleWorld)
     = Ok (Card.mk "a" "Alpha" "hello world" ["x"; "y"] draft
             [Entry.mk 1 "hello world" None create]
             (Position.mk 5 7 250 200 None)
             (Meta.mk 2 1 1000 None None None)).
Proof.
  split; [reflexivity|].
  exact (f_equal fst (updateCard_empty_patch sampleWorld "a" cardA eq_refl)).
Defined.

(** C5 as stated fails: the only card of chunk [kc] starts with a space
    and the export returns it with that space, not trimmed. *)
Lemma exportChunkAsText_untrimmed_counterexample :
  chunksDir sampleWorld !! "kc" = Some chunkC
  /\ fst (exportChunkAsText "kc" sampleWorld) = Ok " indented"
  /\ Text.trim " indented" = "indented"
  /\ fst (exportChunkAsText "kc" sampleWorld) <> Ok (Text.trim " indented").
Proof.
  split; [reflexivity|]. split; [vm_compute; reflexivity|].
  split; [reflexivity|].
  intros H. vm_compute in H. discriminate.
Qed.

(** C6 as stated fails: with three columns and an explicit spacing of 0
    the claim's formula puts the card at index 1 at
    [x = (1 mod 3) * (250 + 0) = 250], but the code lays it out with the
    default spacing 20, at [x = 270]. *)
Lemma autoArrangeCards_zero_spacing_counterexample :
  Layout.type (Layout.mk grid (Some 3) (Some 0) None) = grid
  /\ Layout.spacing (Layout.mk grid (Some 3) (Some 0) None) = Some 0
  /\ placedAt
       (fst (autoArrangeCards ["a"; "b"]
               (Layout.mk grid (Some 3) (Some 0) None) sampleWorld)) 1
     = Some ("b", Position.mk 270 0 250 200 None)
  /\ (1 mod 3) * (250 + 0) = 250
  /\ placedAt
       (fst (autoArrangeCards ["a"; "b"]
               (Layout.mk grid (Some 3) (Some 0) None) sampleWorld)) 1
     <> Some ("b", Position.mk ((1 mod 3) * (250 + 0)) 0 250 200 None).
Proof.
  split; [reflexivity|]. split; [reflexivity|].
  split; [vm_compute; reflexivity|]. split; [reflexivity|].
  intros H. vm_compute in H. discriminate.
Qed.

Lemma autoArrangeCards_grid_witness :
  Layout.type (Layout.mk grid (Some 2) (Some 10) None) = grid
  /\ exists cards w',
       autoArrangeCards ["a"; "gone"; "b"; "c"]
         (Layout.mk grid (Some 2) (Some 10) None) sampleWorld
       = (Ok cards, w')
       /\ map Card.id cards = validIds sampleWorld ["a"; "gone"; "b"; "c"]
       /\ (forall (i : nat) c,
             cards !! i = Some c ->
             Card.position c
             = Position.mk (Z.rem (Z.of_nat i) 2 * 260)
                 (Z.of_nat i / 2 * 210) 250 200 None).
Proof.
  split; [reflexivity|].
  destruct (autoArrangeCards_grid sampleWorld ["a"; "gone"; "b"; "c"]
              (Layout.mk grid (Some 2) (Some 10) None) sampleWorld_wf
              eq_refl)
    as (cards & w' & Hrun & Hids & Hpos & _).
  exists cards, w'. split; [exact Hrun|]. split; [exact Hids|exact Hpos].
Defined.

(** C7 as stated fails: chunk [k] is stored with [autoArrange] true and
    three card ids; a patch that only renames it leaves the resolved
    layout and the ids as they are, yet no card is touched and the clock
    is not read, whereas [autoArrangeCards] on those ids and that layout
    would move card [a]. *)
Lemma updateChunk_rename_counterexample :
  exists chunk',
    fst (updateChunk "k" renamePatch sampleWorld) = Ok chunk'
    /\ Layout.autoArrange (Chunk.layout chunk') = Some true
    /\ Chunk.cardIds chunk' = ["a"; "gone"; "b"]
    /\ cardsDir (snd (updateChunk "k" renamePatch sampleWorld))
       = cardsDir sampleWorld
    /\ reads (snd (updateChunk "k" renamePatch sampleWorld))
       = reads sampleWorld
    /\ cardsDir
         (snd (autoArrangeCards (Chunk.cardIds chunk') (Chunk.layout chunk')
                 (snd (updateChunk "k" renamePatch sampleWorld)))) !! "a"
       <> cardsDir sampleWorld !! "a".
Proof.
  eexists. split; [reflexivity|]. split; [reflexivity|].
  split; [reflexivity|]. split; [reflexivity|]. split; [reflexivity|].
  intros H. vm_compute in H. discriminate.
Qed.

Lemma chunk_autoArrange_trigger_witness :
  chunksDir sampleWorld !! "k" = Some chunkK
  /\ Layout.autoArrange defaultLayout = Some true
  /\ exists w',
       updateChunk "k" (layoutPatch defaultLayout) sampleWorld
       = (Ok (spreadChunk chunkK (layoutPatch defaultLayout)), w').
Proof.
  split; [reflexivity|]. split; [reflexivity|].
  apply (proj1 (chunk_autoArrange_trigger sampleWorld) "k" chunkK
           (layoutPatch defaultLayout) defaultLayout
           eq_refl eq_refl eq_refl).
  - discriminate.
  - exact sampleWorld_wf.
Defined.

Lemma mergeCards_distinct_witness :
  cardsDir sampleWorld !! "a" = Some cardA
  /\ cardsDir sampleWorld !! "b" = Some cardB
  /\ "a" <> "b"
  /\ exists c w',
       mergeCards "a" "b" sampleWorld = (Ok c, w')
       /\ Card.id c = "a"
       /\ cardsDir w' !! "b" = None
       /\ cardsDir w' !! "a" = Some c.
Proof.
  split; [reflexivity|]. split; [reflexivity|]. split; [discriminate|].
  destruct (mergeCards_distinct sampleWorld "a" "b" cardA cardB
              eq_refl eq_refl)
    as (c & w' & Hrun & Hid & _ & _ & _ & HB & HA);
    [discriminate|reflexivity|].
  exists c, w'. repeat split; assumption.
Defined.

Example mergeCards_sample_tags :
  match fst (mergeCards "a" "b" sampleWorld) with
  | Ok c => Card.tags c
  | Err _ => []
  end = ["x"; "y"; "z"].
Proof. vm_compute. reflexivity. Qed.

Lemma mergeCards_same_id_witness :
  cardsDir sampleWorld !! "a" = Some cardA
  /\ exists c w',
       mergeCards "a" "a" sampleWorld = (Ok c, w')
       /\ Card.content c
          = "hello world" +:+ Text.blankLine +:+ "hello world"
       /\ cardsDir w' !! "a" = None.
Proof.
  split; [reflexivity|].
  apply (mergeCards_same_id sampleWorld "a" cardA eq_refl).
Defined.

(** * Further properties of the code *)

(** ** Text utilities *)

Lemma length_append s t :
  String.length (s +:+ t) = (String.length s + String.length t)%nat.
Proof. induction s as [|c s IH]; simpl; [done|]. by rewrite IH. Qed.

Lemma length_substring_prefix s n :
  (n <= String.length s)%nat -> String.length (String.substring 0 n s) = n.
Proof.
  revert n. induction s as [|c s IH]; intros [|n] Hn; simpl in *;
    try done; try lia.
  rewrite IH; [done|lia].
Qed.

Lemma text_substring_prefix s n :
  0 <= n <= Z.of_nat (String.length s) ->
  Text.substring s 0 n = String.substring 0 (Z.to_nat n) s.
Proof.
  intros Hn. unfold Text.substring, Text.clampIndex.
  replace (Z.to_nat (Z.min (Z.max 0 0) (Z.of_nat (String.length s))))
    with 0%nat by lia.
  replace (Z.to_nat (Z.min (Z.max n 0) (Z.of_nat (String.length s))))
    with (Z.to_nat n) by lia.
  by rewrite Nat.min_0_l, Nat.max_0_l, Nat.sub_0_r.
Qed.

Lemma trimStart_fixed s : startsClean s -> Text.trimStart s = s.
Proof. destruct s as [|c s]; simpl; [done|]. by intros ->. Qed.

Lemma trim_idem s : Text.trim (Text.trim s) = Text.trim s.
Proof.
  unfold Text.trim at 1. rewrite trimStart_fixed by apply trim_clean.
  apply trim_trimEnd.
Qed.

Lemma trim_blank s : onlyWhiteSpace s = true -> Text.trim s = EmptyString.
Proof. intros H. apply isEmpty_true. by rewrite trim_onlyWhiteSpace. Qed.

Lemma splitRunsGo_nonempty sep inRun s :
  (1 <= length (Text.splitRunsGo sep inRun s))%nat.
Proof.
  revert inRun. induction s as [|c s IH]; intros inRun; simpl; [lia|].
  destruct (sep c).
  - destruct inRun; simpl; [apply IH|lia].
  - destruct (Text.splitRunsGo sep false s); simpl; lia.
Qed.

(** The title never exceeds 50 characters, whatever the content. *)
Theorem extractTitle_length content :
  (String.length (Text.extractTitle content) <= 50)%nat.
Proof.
  unfold Text.extractTitle.
  set (firstLine := Text.trim (hd EmptyString _)).
  destruct (0 <? String.length firstLine)%nat; [|simpl; lia].
  destruct (String.length firstLine <=? 50)%nat eqn:E1;
    [by apply Nat.leb_le|].
  set (firstSentence := Text.trim (hd EmptyString _)).
  destruct (String.length firstSentence <=? 50)%nat eqn:E2;
    [by apply Nat.leb_le|].
  apply Nat.leb_gt in E2.
  rewrite length_append, text_substring_prefix by lia.
  rewrite length_substring_prefix by (simpl; lia). simpl. lia.
Qed.

(** Empty or white-space-only content gets the placeholder title. *)
Theorem extractTitle_whitespace_only content :
  onlyWhiteSpace content = true ->
  Text.extractTitle content = "Untitled Card".
Proof.
  intros H. unfold Text.extractTitle. rewrite (trim_blank _ H). reflexivity.
Qed.

Lemma extractTitle_whitespace_only_witness :
  onlyWhiteSpace "   " = true /\ Text.extractTitle "   " = "Untitled Card".
Proof. split; [reflexivity|]. apply extractTitle_whitespace_only. reflexivity. Defined.

(** [countWords] is never negative, and it is 0 exactly on the inputs
    that are empty or made of white space only. *)
Theorem countWords_zero_iff s :
  0 <= Text.countWords s
  /\ (Text.countWords s = 0 <-> onlyWhiteSpace s = true).
Proof.
  unfold Text.countWords.
  rewrite isEmpty_length, trim_onlyWhiteSpace.
  destruct (onlyWhiteSpace s) eqn:E.
  - rewrite orb_true_r. done.
  - assert (Hs : Text.isEmpty s = false) by (destruct s; done).
    rewrite Hs. simpl.
    pose proof (splitRunsGo_nonempty Text.isWhiteSpace false (Text.trim s)).
    unfold Text.splitRuns. split; [lia|]. split; [lia|done].
Qed.

(** [truncateText] returns a text that fits as it is; a longer one is cut
    to [maxLength - 3] characters plus three dots, [maxLength] characters
    in all, as long as [maxLength] is at least 3.  Below 3 the result of
    cutting is the three dots alone, longer than [maxLength]. *)
Theorem truncateText_cases text maxLength :
  let m := default 100 maxLength in
  (Z.of_nat (String.length text) <= m ->
   Text.truncateText text maxLength = text)
  /\ (3 <= m < Z.of_nat (String.length text) ->
      Text.truncateText text maxLength
      = String.substring 0 (Z.to_nat (m - 3)) text +:+ "..."
      /\ Z.of_nat (String.length (Text.truncateText text maxLength)) = m)
  /\ (m < 3 -> m < Z.of_nat (String.length text) ->
      Text.truncateText text maxLength = "...").
Proof.
  cbv zeta. unfold Text.truncateText.
  split; [|split].
  - intros H. apply Z.leb_le in H. by rewrite H.
  - intros [H3 Hlen].
    assert (E : (Z.of_nat (String.length text) <=? default 100 maxLength)
                = false) by (apply Z.leb_gt; lia).
    rewrite E, text_substring_prefix by lia. split; [done|].
    rewrite length_append, length_substring_prefix by lia. simpl. lia.
  - intros H3 Hlen.
    assert (E : (Z.of_nat (String.length text) <=? default 100 maxLength)
                = false) by (apply Z.leb_gt; lia).
    rewrite E. unfold Text.substring, Text.clampIndex.
    replace (Z.to_nat (Z.min (Z.max 0 0) (Z.of_nat (String.length text))))
      with 0%nat by lia.
    replace (Z.to_nat
               (Z.min (Z.max (default 100 maxLength - 3) 0)
                  (Z.of_nat (String.length text))))
      with 0%nat by lia.
    simpl. by rewrite substring_0_0.
Qed.

Lemma truncateText_cases_witness :
  3 <= 8 < Z.of_nat (String.length "hello world")
  /\ Text.truncateText "hello world" (Some 8) = "hello...".
Proof.
  split; [simpl; lia|].
  apply (proj1 (proj2 (truncateText_cases "hello world" (Some 8)))).
  simpl. lia.
Defined.

(** One character through the three passes of [sanitizeFilename]: unless
    it is turned into white space's underscore, what comes out is safe. *)
Lemma sanitize_char_safe c :
  let c1 := if Text.isInvalidFileChar c then "-"%char else c in
  Text.isWhiteSpace c1 = false ->
  isSafeFileChar (Text.toLowerChar c1) = true.
Proof.
  destruct c as [[] [] [] [] [] [] [] []]; vm_compute; congruence.
Qed.

Lemma safe_char_fixed c :
  isSafeFileChar c = true ->
  Text.isInvalidFileChar c = false /\ Text.isWhiteSpace c = false
  /\ Text.toLowerChar c = c.
Proof.
  unfold isSafeFileChar.
  intros [[H1 H2]%andb_true_iff H3]%andb_true_iff.
  apply negb_true_iff in H1, H2. apply Ascii.eqb_eq in H3. done.
Qed.

Lemma sanitize_go_safe filename : forall inRun,
  allChars isSafeFileChar
    (Text.toLowerCase
       (Text.replaceRunsGo Text.isWhiteSpace "_"%char inRun
          (Text.replaceEach Text.isInvalidFileChar "-"%char filename)))
  = true.
Proof.
  induction filename as [|c s IH]; intros inRun;
    cbn [Text.replaceEach Text.replaceRunsGo]; [done|].
  destruct (Text.isWhiteSpace
              (if Text.isInvalidFileChar c then "-"%char else c)) eqn:Ews.
  - destruct inRun; [apply IH|].
    cbn [Text.toLowerCase allChars]. rewrite IH. reflexivity.
  - cbn [Text.toLowerCase allChars].
    rewrite (sanitize_char_safe c Ews). apply IH.
Qed.

Lemma sanitize_go_fixed s : forall inRun,
  allChars isSafeFileChar s = true ->
  Text.toLowerCase
    (Text.replaceRunsGo Text.isWhiteSpace "_"%char inRun
       (Text.replaceEach Text.isInvalidFileChar "-"%char s)) = s.
Proof.
  induction s as [|c s IH]; intros inRun;
    cbn [Text.replaceEach Text.replaceRunsGo allChars]; [done|].
  intros [Hc Hs]%andb_true_iff.
  destruct (safe_char_fixed c Hc) as (H1 & H2 & H3).
  rewrite H1, H2. cbn [Text.toLowerCase]. by rewrite H3, IH.
Qed.

(** The result of [sanitizeFilename] holds no forbidden character, no
    white space and no capital letter, and sanitizing it again changes
    nothing. *)
Theorem sanitizeFilename_safe filename :
  allChars isSafeFileChar (Text.sanitizeFilename filename) = true
  /\ Text.sanitizeFilename (Text.sanitizeFilename filename)
     = Text.sanitizeFilename filename.
Proof.
  assert (H : allChars isSafeFileChar (Text.sanitizeFilename filename) = true)
    by apply sanitize_go_safe.
  split; [done|]. by apply sanitize_go_fixed.
Qed.

Example sanitizeFilename_sample :
  Text.sanitizeFilename "My  File: A/B?.TXT" = "my_file-_a-b-.txt".
Proof. reflexivity. Qed.

(** Every paragraph that [detectParagraphs] returns is non-empty and has
    no white space at either end. *)
Theorem detectParagraphs_trimmed text :
  Forall (fun p => p <> EmptyString /\ Text.trim p = p)
    (Text.detectParagraphs text).
Proof.
  apply Forall_forall. intros p Hp.
  unfold Text.detectParagraphs in Hp.
  apply list_elem_of_filter in Hp as [Hne Hin].
  apply list_elem_of_fmap in Hin as (q & -> & _).
  split; [|apply trim_idem].
  intros E. rewrite E in Hne. done.
Qed.

Lemma splitBlankGo_single_line s :
  allChars notLineFeed s = true -> Text.splitBlankGo 0 s = [s].
Proof.
  induction s as [|c s IH]; cbn [allChars Text.splitBlankGo]; [done|].
  intros [Hc Hs]%andb_true_iff.
  unfold notLineFeed in Hc. apply negb_true_iff in Hc.
  rewrite Hc, (IH Hs). done.
Qed.

(** A text without any line feed is one paragraph, its trimmed self, or
    no paragraph at all when it holds white space only. *)
Theorem detectParagraphs_single_line text :
  allChars notLineFeed text = true ->
  Text.detectParagraphs text
  = if onlyWhiteSpace text then [] else [Text.trim text].
Proof.
  intros H. unfold Text.detectParagraphs, Text.splitBlankLines.
  rewrite (splitBlankGo_single_line _ H). cbn [map].
  rewrite filter_cons, filter_nil, nonEmpty_length, trim_onlyWhiteSpace.
  destruct (onlyWhiteSpace text); reflexivity.
Qed.

Lemma detectParagraphs_single_line_witness :
  allChars notLineFeed "  one line " = true
  /\ Text.detectParagraphs "  one line " = ["one line"].
Proof.
  split; [reflexivity|].
  apply (detectParagraphs_single_line "  one line "). reflexivity.
Defined.

Example detectParagraphs_three :
  Text.detectParagraphs
    ("Para one." +:+ Text.blankLine +:+ "Para two." +:+ Text.blankLine
     +:+ "Para three.")
  = ["Para one."; "Para two."; "Para three."].
Proof. reflexivity. Qed.

(** ** Missing documents *)

Lemma splitCard_missing w id splitPoint :
  cardsDir w !! id = None ->
  splitCard id splitPoint w = (Err (CardNotFound id), w).
Proof.
  intros Hid. unfold splitCard.
  rewrite (bind_ok _ _ w None w) by (unfold Storage.loadCard; by rewrite Hid).
  reflexivity.
Qed.

Lemma mergeCards_missing w id1 id2 :
  cardsDir w !! id1 = None \/ cardsDir w !! id2 = None ->
  mergeCards id1 id2 w = (Err CardsNotFound, w).
Proof.
  intros H. unfold mergeCards, bind, Storage.loadCard. simpl.
  destruct (cardsDir w !! id1), (cardsDir w !! id2), H; done.
Qed.

(** On an id without a stored card, [updateCard], [updateCardPosition]
    and [splitCard] fail with the card-not-found error and leave the
    world as it was: nothing is written, no id is drawn, the clock is
    not read. *)
Theorem card_not_found w id :
  cardsDir w !! id = None ->
  (forall updates,
     updateCard id updates w = (Err (CardNotFound id), w))
  /\ (forall position,
        updateCardPosition id position w = (Err (CardNotFound id), w))
  /\ (forall splitPoint,
        splitCard id splitPoint w = (Err (CardNotFound id), w)).
Proof.
  intros Hid. split; [|split].
  - intros updates. by apply updateCard_missing.
  - intros position. by apply updateCard_missing.
  - intros splitPoint. by apply splitCard_missing.
Qed.

Lemma card_not_found_witness :
  cardsDir sampleWorld !! "gone" = None
  /\ splitCard "gone" 3 sampleWorld = (Err (CardNotFound "gone"), sampleWorld).
Proof.
  split; [reflexivity|].
  apply (proj2 (proj2 (card_not_found sampleWorld "gone" eq_refl))).
Defined.

(** [mergeCards] fails exactly when one of the two ids has no stored
    card; the failure is the one-or-both-not-found error and the world
    is left as it was. *)
Theorem mergeCards_fails_iff w id1 id2 :
  (cardsDir w !! id1 = None \/ cardsDir w !! id2 = None)
  <-> mergeCards id1 id2 w = (Err CardsNotFound, w).
Proof.
  split; [apply mergeCards_missing|].
  intros Hrun.
  destruct (cardsDir w !! id1) as [c1|] eqn:H1; [|by left].
  destruct (cardsDir w !! id2) as [c2|] eqn:H2; [|by right].
  destruct (mergeCards_stored w id1 id2 c1 c2 H1 H2) as (w' & Hok & _).
  cbv zeta in Hok. rewrite Hok in Hrun. discriminate.
Qed.

(** ** Deleting *)

(** [deleteCard] answers whether a document was there; afterwards the id
    resolves to nothing, every other card and every chunk, the chunks
    that list the id included, is as before, and deleting again
    answers false. *)
Theorem deleteCard_effect w id :
  exists removed w',
    deleteCard id w = (Ok removed, w')
    /\ (removed = true <-> is_Some (cardsDir w !! id))
    /\ cardsDir w' = delete id (cardsDir w)
    /\ getCard id w' = (Ok None, w')
    /\ (forall k, k <> id -> cardsDir w' !! k = cardsDir w !! k)
    /\ chunksDir w' = chunksDir w
    /\ deleteCard id w' = (Ok false, w').
Proof.
  unfold deleteCard, getCard, Storage.deleteCard, Storage.loadCard, withCards.
  destruct (cardsDir w !! id) as [c|] eqn:Hid.
  - eexists true, _. split; [reflexivity|]. simpl.
    rewrite lookup_delete_eq.
    split; [split; eauto|]. split; [done|]. split; [done|].
    split; [|done]. intros k Hk. by rewrite lookup_delete_ne.
  - exists false, w. rewrite Hid.
    split; [done|]. split; [split; [done|by intros [? ?]]|].
    split; [symmetry; by apply delete_id|]. done.
Qed.

(** [deleteChunk] answers whether a chunk was there and removes it; no
    card is touched, so every card the chunk listed still loads. *)
Theorem deleteChunk_keeps_cards w id :
  exists removed w',
    deleteChunk id w = (Ok removed, w')
    /\ (removed = true <-> is_Some (chunksDir w !! id))
    /\ chunksDir w' = delete id (chunksDir w)
    /\ cardsDir w' = cardsDir w
    /\ (forall k, getCard k w' = (Ok (cardsDir w !! k), w')).
Proof.
  unfold deleteChunk, getCard, Storage.deleteChunk, Storage.loadCard,
    withChunks.
  destruct (chunksDir w !! id) as [c|] eqn:Hid.
  - eexists true, _. split; [reflexivity|]. simpl.
    split; [split; eauto|]. done.
  - exists false, w.
    split; [done|]. split; [split; [done|by intros [? ?]]|].
    split; [symmetry; by apply delete_id|]. done.
Qed.

(** ** Creating and updating *)

(** [createCard] returns a draft card under the next identifier, with
    the given content, its word count, one [create] history entry and,
    when no non-empty title is given, the title extracted from the
    content; the card then loads under its id, and every other card and
    every chunk is as before. *)
Theorem createCard_effect w content title tags position :
  exists c w',
    createCard content title tags position w = (Ok c, w')
    /\ Card.id c = randomUUID w (issued w)
    /\ Card.content c = content
    /\ Card.status c = draft
    /\ Card.history c = [Entry.mk (clock w (reads w)) content None create]
    /\ Meta.wordCount (Card.metadata c) = Text.countWords content
    /\ (truthy title = false -> Card.title c = Text.extractTitle content)
    /\ (forall t, title = Some t -> t <> EmptyString -> Card.title c = t)
    /\ getCard (Card.id c) w' = (Ok (Some c), w')
    /\ (forall k, k <> Card.id c -> cardsDir w' !! k = cardsDir w !! k)
    /\ chunksDir w' = chunksDir w.
Proof.
  eexists _, _. split; [apply createCard_run|].
  unfold getCard, Storage.loadCard. rewrite createdWorld_lookup.
  repeat split.
  - simpl. by intros ->.
  - intros t -> Hne. simpl. by destruct t.
  - intros k Hk. simpl. by rewrite lookup_insert_ne.
Qed.

(** Whatever the patch says, [updateCard] stamps [updatedAt] with the
    clock and decides the word count itself: the count of the patch's
    content when that is non-empty, the stored count otherwise; a
    [wordCount] or [updatedAt] inside the patch's metadata is ignored.
    [createdAt] is kept unless the patch carries a metadata object. *)
Theorem updateCard_metadata w id card updates :
  cardsDir w !! id = Some card ->
  exists c w',
    updateCard id updates w = (Ok c, w')
    /\ Meta.updatedAt (Card.metadata c) = clock w (reads w)
    /\ Meta.wordCount (Card.metadata c)
       = match CardPatch.content updates with
         | Some text =>
             if Text.isEmpty text
             then Meta.wordCount (Card.metadata card)
             else Text.countWords text
         | None => Meta.wordCount (Card.metadata card)
         end
    /\ (CardPatch.metadata updates = None ->
        Meta.createdAt (Card.metadata c)
        = Meta.createdAt (Card.metadata card))
    /\ cardsDir w' !! Card.id c = Some c.
Proof.
  intros Hid. eexists _, _. split; [by apply updateCard_stored|].
  split; [|split; [|split]].
  - unfold editedCard.
    destruct (contentChanged card updates), (CardPatch.metadata updates);
      reflexivity.
  - unfold editedCard.
    destruct (contentChanged card updates), (CardPatch.metadata updates),
      (CardPatch.content updates) as [[|]|]; reflexivity.
  - intros Hm. unfold editedCard. rewrite Hm.
    destruct (contentChanged card updates); reflexivity.
  - apply savedWorld_lookup.
Qed.

Lemma updateCard_metadata_witness :
  cardsDir sampleWorld !! "a" = Some cardA
  /\ exists c w',
       updateCard "a"
         (CardPatch.mk None None None None None None None
            (Some (Meta.mk 99 0 0 None None None)))
         sampleWorld = (Ok c, w')
       /\ Meta.updatedAt (Card.metadata c) = 1000.
Proof.
  split; [reflexivity|].
  destruct (updateCard_metadata sampleWorld "a" cardA
              (CardPatch.mk None None None None None None None
                 (Some (Meta.mk 99 0 0 None None None))) eq_refl)
    as (c & w' & Hrun & Hupd & _).
  exists c, w'. split; [exact Hrun|exact Hupd].
Defined.

(** A patch that carries another [id] makes [updateCard] write the
    merged card under that other id; the document under the old id stays
    as it was, so the card now exists twice. *)
Theorem updateCard_id_patch w id card updates newId :
  cardsDir w !! id = Some card ->
  CardPatch.id updates = Some newId ->
  newId <> id ->
  exists c w',
    updateCard id updates w = (Ok c, w')
    /\ Card.id c = newId
    /\ cardsDir w' !! newId = Some c
    /\ cardsDir w' !! id = Some card.
Proof.
  intros Hid Hnew Hne.
  assert (Hc : Card.id (editedCard w card updates) = newId).
  { unfold editedCard.
    destruct (contentChanged card updates); simpl; by rewrite Hnew. }
  eexists _, _. split; [by apply updateCard_stored|].
  split; [done|]. unfold savedWorld. simpl. rewrite Hc. split.
  - apply lookup_insert_eq.
  - by rewrite lookup_insert_ne.
Qed.

Lemma updateCard_id_patch_witness :
  cardsDir sampleWorld !! "a" = Some cardA
  /\ exists c w',
       updateCard "a"
         (CardPatch.mk (Some "a2") None None None None None None None)
         sampleWorld = (Ok c, w')
       /\ Card.id c = "a2"
       /\ cardsDir w' !! "a2" = Some c
       /\ cardsDir w' !! "a" = Some cardA.
Proof.
  split; [reflexivity|].
  apply (updateCard_id_patch sampleWorld "a" cardA
           (CardPatch.mk (Some "a2") None None None None None None None)
           "a2" eq_refl eq_refl).
  discriminate.
Defined.

(** ** Splitting inside the text, and merging the halves again *)

Lemma text_substringFrom_suffix s p :
  (p <= String.length s)%nat ->
  Text.substringFrom s (Z.of_nat p)
  = String.substring p (String.length s - p) s.
Proof.
  intros Hp. unfold Text.substringFrom, Text.substring, Text.clampIndex.
  replace (Z.to_nat
             (Z.min (Z.max (Z.of_nat p) 0) (Z.of_nat (String.length s))))
    with p by lia.
  replace (Z.to_nat
             (Z.min (Z.max (Z.of_nat (String.length s)) 0)
                (Z.of_nat (String.length s))))
    with (String.length s) by lia.
  by rewrite Nat.min_l, Nat.max_r by lia.
Qed.

(** For an offset inside the text, [splitCard] gives the original card
    the trimmed first [p] characters and a new draft card, under the next
    identifier, the trimmed rest; both get the title extracted from
    their content; the new card inherits the tags, stands to the right
    of the original (x + width + 20, same y and size) and its history
    is a [create] and a [split] entry with its content. *)
Theorem splitCard_in_range w id card (p : nat) :
  cardsDir w !! id = Some card ->
  (p <= String.length (Card.content card))%nat ->
  let text := Card.content card in
  let content1 := Text.trim (String.substring 0 p text) in
  let content2 :=
    Text.trim (String.substring p (String.length text - p) text) in
  exists c1 c2 w',
    splitCard id (Z.of_nat p) w = (Ok (c1, c2), w')
    /\ Card.content c1 = content1
    /\ Card.title c1 = Text.extractTitle content1
    /\ Card.content c2 = content2
    /\ Card.title c2 = Text.extractTitle content2
    /\ Card.id c2 = randomUUID w (issued w)
    /\ Card.tags c2 = Card.tags card
    /\ Card.status c2 = draft
    /\ Card.position c2
       = Position.mk
           (Position.x (Card.position card)
            + Position.width (Card.position card) + 20)
           (Position.y (Card.position card))
           (Position.width (Card.position card))
           (Position.height (Card.position card)) None
    /\ (exists t t',
          Card.history c2
          = [Entry.mk t content2 None create; Entry.mk t' content2 None split])
    /\ Meta.wordCount (Card.metadata c2) = Text.countWords content2.
Proof.
  intros Hid Hp. cbv zeta.
  eexists _, _, _. split; [by apply splitCard_stored|]. cbv zeta.
  rewrite text_substring_prefix, text_substringFrom_suffix, Nat2Z.id by lia.
  set (content1 := Text.trim (String.substring 0 p (Card.content card))).
  set (content2 := Text.trim (String.substring p _ (Card.content card))).
  split; [simpl; by rewrite editedCard_content|].
  split.
  { simpl. unfold editedCard.
    destruct (contentChanged card (contentPatch content1 None)); done. }
  split; [done|]. split.
  { simpl. destruct (Text.isEmpty (Text.extractTitle content2)); done. }
  split; [done|]. split; [done|]. split; [done|]. split; [done|].
  split; [|done]. eexists _, _. reflexivity.
Qed.

Lemma splitCard_in_range_witness :
  cardsDir sampleWorld !! "a" = Some cardA
  /\ (5 <= String.length (Card.content cardA))%nat
  /\ exists c1 c2 w',
       splitCard "a" 5 sampleWorld = (Ok (c1, c2), w')
       /\ Card.content c1 = "hello"
       /\ Card.content c2 = "world".
Proof.
  split; [reflexivity|]. split; [simpl; lia|].
  destruct (splitCard_in_range sampleWorld "a" cardA 5 eq_refl)
    as (c1 & c2 & w' & Hrun & H1 & _ & H2 & _); [simpl; lia|].
  exists c1, c2, w'. split; [exact Hrun|]. split; [exact H1|exact H2].
Defined.

Lemma pushHistory_length card e :
  length (Card.history (Card.pushHistory card e))
  = S (length (Card.history card)).
Proof. unfold Card.pushHistory. simpl. rewrite length_app. simpl. lia. Qed.

Lemma editedCard_changed_length w card updates :
  contentChanged card updates = true ->
  length (Card.history (editedCard w card updates))
  = S (length (Card.history card)).
Proof.
  intros H. unfold editedCard. rewrite H. simpl. rewrite length_app.
  simpl. lia.
Qed.

Lemma lookup_under (m : gmap string Card.t) (a b : Card.t) :
  Card.id a <> Card.id b ->
  <[Card.id b := b]> (<[Card.id a := a]> m) !! Card.id a = Some a.
Proof.
  intros Hne. rewrite lookup_insert_ne by congruence. apply lookup_insert_eq.
Qed.

Lemma lookup_merged (m : gmap string Card.t) k2 (c e : Card.t) k :
  Card.id c = k -> k <> k2 ->
  delete k2 (<[Card.id c := c]> (<[Card.id e := e]> m)) !! k = Some c.
Proof.
  intros <- Hne. rewrite lookup_delete_ne by done. apply lookup_insert_eq.
Qed.

(** Splitting a card stored under its own id and merging the two halves
    again (the new identifier being a new one) gives back one card under
    the original id: its content is the two trimmed halves around the
    blank-line separator, the second half's document is gone, and the
    history has grown by at least three entries. *)
Theorem split_then_merge w id card splitPoint :
  cardsDir w !! id = Some card ->
  Card.id card = id ->
  randomUUID w (issued w) <> id ->
  exists c1 c2 w1 m w2,
    splitCard id splitPoint w = (Ok (c1, c2), w1)
    /\ mergeCards (Card.id c1) (Card.id c2) w1 = (Ok m, w2)
    /\ Card.id m = id
    /\ Card.content m
       = Text.trim (Text.substring (Card.content card) 0 splitPoint)
         +:+ Text.blankLine
         +:+ Text.trim (Text.substringFrom (Card.content card) splitPoint)
    /\ cardsDir w2 !! Card.id c2 = None
    /\ cardsDir w2 !! id = Some m
    /\ (length (Card.history card) + 3 <= length (Card.history m))%nat.
Proof.
  intros Hid Hown Hfresh.
  pose proof (splitCard_stored w id card splitPoint Hid) as Hsplit.
  cbv zeta in Hsplit.
  set (content1 :=
         Text.trim (Text.substring (Card.content card) 0 splitPoint)) in *.
  set (content2 :=
         Text.trim (Text.substringFrom (Card.content card) splitPoint)) in *.
  set (e1 := editedCard w card (contentPatch content1 None)) in *.
  set (w1 := savedWorld w (editReads card (contentPatch content1 None)) e1)
    in *.
  set (n2 := createdCard w1 content2 _ _ _) in *.
  set (w2 := createdWorld w1 n2) in *.
  set (c1 := Card.pushHistory e1 _) in *.
  set (c2 := Card.pushHistory n2 _) in *.
  set (w3 := mkWorld _ _ _ _ _ _) in Hsplit.
  assert (Hid1 : Card.id c1 = id).
  { unfold c1, e1. simpl. rewrite editedCard_id; done. }
  assert (Hid2 : Card.id c2 = randomUUID w (issued w)) by done.
  assert (Hne : Card.id c1 <> Card.id c2) by congruence.
  assert (H1 : cardsDir w3 !! Card.id c1 = Some c1).
  { unfold w3. apply (lookup_under _ c1 c2 Hne). }
  assert (H2 : cardsDir w3 !! Card.id c2 = Some c2).
  { unfold w3. simpl. apply lookup_insert_eq. }
  destruct (mergeCards_stored w3 (Card.id c1) (Card.id c2) c1 c2 H1 H2)
    as (w4 & Hmerge & Hw4).
  cbv zeta in Hmerge, Hw4.
  eexists c1, c2, w3, _, w4. split; [exact Hsplit|]. split; [exact Hmerge|].
  assert (Hm : Card.id
                 (editedCard w3 c1
                    (contentPatch
                       (Card.content c1 +:+ Text.blankLine +:+ Card.content c2)
                       (Some (dedup (Card.tags c1 ++ Card.tags c2)))))
               = id).
  { rewrite editedCard_id; done. }
  split; [exact Hm|]. split.
  { simpl. rewrite editedCard_content. simpl.
    unfold c1, c2, n2, e1. simpl. rewrite editedCard_content. reflexivity. }
  split; [rewrite Hw4; apply lookup_delete_eq|]. split.
  { rewrite Hw4. apply lookup_merged; [exact Hm|].
    intros E. apply Hfresh. rewrite E. symmetry. exact Hid2. }
  assert (Hch : contentChanged c1
            (contentPatch
               (Card.content c1 +:+ Text.blankLine +:+ Card.content c2)
               (Some (dedup (Card.tags c1 ++ Card.tags c2)))) = true).
  { apply contentChanged_true. eexists. split; [reflexivity|]. split.
    - apply append_nonempty_r. discriminate.
    - apply append_ne_self. discriminate. }
  rewrite pushHistory_length, (editedCard_changed_length _ _ _ Hch).
  unfold c1. rewrite pushHistory_length.
  pose proof (editedCard_history_grows w card (contentPatch content1 None)
                eq_refl) as Hg.
  fold e1 in Hg. lia.
Qed.

Lemma split_then_merge_witness :
  cardsDir sampleWorld !! "a" = Some cardA
  /\ randomUUID sampleWorld (issued sampleWorld) <> "a"
  /\ exists c1 c2 w1 m w2,
       splitCard "a" 5 sampleWorld = (Ok (c1, c2), w1)
       /\ mergeCards (Card.id c1) (Card.id c2) w1 = (Ok m, w2)
       /\ Card.id m = "a"
       /\ Card.content m = "hello" +:+ Text.blankLine +:+ "world".
Proof.
  split; [reflexivity|]. split; [discriminate|].
  destruct (split_then_merge sampleWorld "a" cardA 5 eq_refl eq_refl)
    as (c1 & c2 & w1 & m & w2 & Hs & Hm & Hid & Hc & _); [discriminate|].
  exists c1, c2, w1, m, w2. repeat split; assumption.
Defined.

(** ** What the layout leaves alone *)

Lemma samePayload_refl c : samePayload c c.
Proof. unfold samePayload. repeat split. Qed.

Lemma samePayload_trans a b c :
  samePayload a b -> samePayload b c -> samePayload a c.
Proof.
  unfold samePayload. intros Hab Hbc.
  destruct Hab as (?&?&?&?&?&?&?&?&?&?&?).
  destruct Hbc as (?&?&?&?&?&?&?&?&?&?&?).
  repeat split; congruence.
Qed.

Lemma sameDocuments_refl m : sameDocuments m m.
Proof.
  intros k. destruct (m !! k); [apply samePayload_refl|done].
Qed.

Lemma sameDocuments_trans m1 m2 m3 :
  sameDocuments m1 m2 -> sameDocuments m2 m3 -> sameDocuments m1 m3.
Proof.
  intros H12 H23 k. specialize (H12 k). specialize (H23 k).
  destruct (m1 !! k), (m2 !! k), (m3 !! k); try done.
  by eapply samePayload_trans.
Qed.

Lemma sameDocuments_insert (m : gmap string Card.t) c c' :
  m !! Card.id c' = Some c -> samePayload c c' ->
  sameDocuments m (<[Card.id c' := c']> m).
Proof.
  intros Hc Hsame k. destruct (decide (Card.id c' = k)) as [<-|Hne].
  - by rewrite lookup_insert_eq, Hc.
  - rewrite lookup_insert_ne by done.
    destruct (m !! k); [apply samePayload_refl|done].
Qed.

Lemma updateCardPosition_payload w id card position :
  cardsDir w !! id = Some card ->
  exists card',
    updateCardPosition id position w = (Ok card', savedWorld w 1 card')
    /\ samePayload card card'.
Proof.
  intros Hid. unfold updateCardPosition.
  eexists. split; [by apply (updateCard_stored w id card)|].
  unfold samePayload. repeat split.
Qed.

Lemma arrangeFrom_payload place cs : forall i w,
  storeWf w ->
  (forall c, c ∈ cs -> is_Some (cardsDir w !! Card.id c)) ->
  exists cs' w',
    arrangeFrom place i cs w = (Ok cs', w')
    /\ sameDocuments (cardsDir w) (cardsDir w')
    /\ chunksDir w' = chunksDir w
    /\ issued w' = issued w
    /\ randomUUID w' = randomUUID w
    /\ clock w' = clock w.
Proof.
  induction cs as [|c rest IH]; intros i w Hw Hkeys.
  - exists [], w. split; [done|]. split; [apply sameDocuments_refl|done].
  - destruct (Hkeys c) as [c0 Hc0]; [by left|].
    destruct (updateCardPosition_payload w (Card.id c) c0 (place i) Hc0)
      as (c' & Hrun & Hsame).
    assert (Hidc : Card.id c' = Card.id c).
    { destruct Hsame as [-> _]. by apply Hw. }
    set (w1 := savedWorld w 1 c') in *.
    assert (Hw1 : storeWf w1) by by apply storeWf_saved.
    assert (H01 : sameDocuments (cardsDir w) (cardsDir w1)).
    { unfold w1, savedWorld. simpl. apply (sameDocuments_insert _ c0); [|done].
      by rewrite Hidc. }
    destruct (IH (i + 1) w1 Hw1)
      as (cs' & w' & Hrest & Hdocs & Hch & Hiss & Huuid & Hclock).
    { intros c2 Hc2. specialize (H01 (Card.id c2)).
      destruct (Hkeys c2) as [c3 Hc3]; [by right|].
      rewrite Hc3 in H01. destruct (cardsDir w1 !! Card.id c2); [eauto|done]. }
    exists (c' :: cs'), w'. split.
    { simpl. erewrite bind_ok by exact Hrun.
      erewrite bind_ok by exact Hrest. done. }
    split; [by eapply sameDocuments_trans|].
    rewrite Hch, Hiss, Huuid, Hclock. done.
Qed.

Lemma autoArrangeCards_documents w cardIds layout :
  storeWf w ->
  exists cards w',
    autoArrangeCards cardIds layout w = (Ok cards, w')
    /\ map Card.id cards = validIds w cardIds
    /\ sameDocuments (cardsDir w) (cardsDir w')
    /\ (forall k, k ∉ validIds w cardIds ->
                  cardsDir w' !! k = cardsDir w !! k)
    /\ chunksDir w' = chunksDir w
    /\ (Layout.type layout = freeform ->
        w' = w /\ cards = omap (fun id => cardsDir w !! id) cardIds)
    /\ storeWf w'
    /\ issued w' = issued w
    /\ randomUUID w' = randomUUID w.
Proof.
  intros Hw.
  assert (Hkeys : forall c,
            c ∈ omap (fun id => cardsDir w !! id) cardIds ->
            is_Some (cardsDir w !! Card.id c)).
  { intros c Hc. by apply (validCards_stored w cardIds). }
  assert (Hgen : forall place,
            exists cards w',
              arrangeFrom place 0
                (omap (fun id => cardsDir w !! id) cardIds) w = (Ok cards, w')
              /\ map Card.id cards = validIds w cardIds
              /\ sameDocuments (cardsDir w) (cardsDir w')
              /\ (forall k, k ∉ validIds w cardIds ->
                            cardsDir w' !! k = cardsDir w !! k)
              /\ chunksDir w' = chunksDir w
              /\ storeWf w'
              /\ issued w' = issued w
              /\ randomUUID w' = randomUUID w).
  { intros place.
    destruct (arrangeFrom_spec place _ 0 w Hw Hkeys)
      as (cs1 & w1 & Hrun1 & Hw1 & Hids & _ & Hframe & _).
    destruct (arrangeFrom_payload place _ 0 w Hw Hkeys)
      as (cs2 & w2 & Hrun2 & Hdocs & Hch & Hiss & Huuid & _).
    rewrite Hrun1 in Hrun2. injection Hrun2 as <- <-.
    exists cs1, w1. split; [done|].
    rewrite <- (validCards_ids w cardIds Hw).
    split; [done|]. split; [done|]. split; [|done].
    intros k Hk. by apply Hframe. }
  unfold autoArrangeCards.
  erewrite bind_ok by reflexivity.
  destruct (Layout.type layout).
  - destruct (Hgen (gridPosition (orDefault (Layout.columns layout) 3)
                      (orDefault (Layout.spacing layout) 20)))
      as (cards & w' & Hrun & Hids & Hdocs & Hframe & Hch & Hw' & Hi & Hu).
    exists cards, w'. repeat split; try done.
  - eexists _, w. split; [reflexivity|].
    split; [by apply validCards_ids|].
    split; [apply sameDocuments_refl|]. done.
  - destruct (Hgen (linearPosition (orDefault (Layout.spacing layout) 20)))
      as (cards & w' & Hrun & Hids & Hdocs & Hframe & Hch & Hw' & Hi & Hu).
    exists cards, w'. repeat split; try done.
Qed.

(** On a store whose documents sit under their own ids,
    [autoArrangeCards] succeeds for every layout and only moves cards:
    the same documents exist afterwards, each with its id, title,
    content, tags, status, history, word count and creation date as
    before; the documents of ids that are not listed or do not resolve
    are not written at all, and no chunk changes.  With the [freeform]
    layout nothing at all is written and the loaded cards are returned
    as they are. *)
Theorem autoArrangeCards_only_moves w cardIds layout :
  storeWf w ->
  exists cards w',
    autoArrangeCards cardIds layout w = (Ok cards, w')
    /\ map Card.id cards = validIds w cardIds
    /\ sameDocuments (cardsDir w) (cardsDir w')
    /\ (forall k, k ∉ validIds w cardIds ->
                  cardsDir w' !! k = cardsDir w !! k)
    /\ chunksDir w' = chunksDir w
    /\ (Layout.type layout = freeform ->
        w' = w /\ cards = omap (fun id => cardsDir w !! id) cardIds).
Proof.
  intros Hw.
  destruct (autoArrangeCards_documents w cardIds layout Hw)
    as (cards & w' & H1 & H2 & H3 & H4 & H5 & H6 & _).
  exists cards, w'. done.
Qed.

Lemma autoArrangeCards_only_moves_witness :
  exists cards w',
    autoArrangeCards ["a"; "gone"; "b"] defaultLayout sampleWorld
    = (Ok cards, w')
    /\ sameDocuments (cardsDir sampleWorld) (cardsDir w').
Proof.
  destruct (autoArrangeCards_only_moves sampleWorld ["a"; "gone"; "b"]
              defaultLayout sampleWorld_wf)
    as (cards & w' & Hrun & _ & Hdocs & _).
  exists cards, w'. split; [exact Hrun|exact Hdocs].
Defined.

(** For a linear layout the card at zero-based index [i] of the ids that
    resolve is put at [x = i * (250 + spacing)], [y = 0], with the
    footprint 250 x 200, [spacing] being [layout.spacing] or 20; it is
    saved in that state unless its id occurs again later in the list. *)
Theorem autoArrangeCards_linear w cardIds layout :
  storeWf w ->
  Layout.type layout = linear ->
  let spacing := orDefault (Layout.spacing layout) 20 in
  exists cards w',
    autoArrangeCards cardIds layout w = (Ok cards, w')
    /\ map Card.id cards = validIds w cardIds
    /\ (forall (i : nat) c,
          cards !! i = Some c ->
          Card.position c
          = Position.mk (Z.of_nat i * (250 + spacing)) 0 250 200 None)
    /\ (forall (i : nat) c,
          cards !! i = Some c ->
          (forall (j : nat) c2,
             (i < j)%nat -> cards !! j = Some c2 -> Card.id c2 <> Card.id c) ->
          cardsDir w' !! Card.id c = Some c).
Proof.
  intros Hw Hlin. cbv zeta.
  destruct (arrangeFrom_spec
              (linearPosition (orDefault (Layout.spacing layout) 20))
              (omap (fun id => cardsDir w !! id) cardIds) 0 w Hw)
    as (cs' & w' & Hrun & _ & Hids & Hpos & _ & _ & Hlast).
  { intros c Hc. by apply (validCards_stored w cardIds). }
  exists cs', w'. split.
  { unfold autoArrangeCards. rewrite Hlin.
    erewrite bind_ok by reflexivity. exact Hrun. }
  split; [by rewrite Hids, validCards_ids|].
  split; [|exact Hlast].
  intros i c Hi. rewrite (Hpos i c Hi). reflexivity.
Qed.

Lemma autoArrangeCards_linear_witness :
  Layout.type (Layout.mk linear None None None) = linear
  /\ exists cards w',
       autoArrangeCards ["a"; "b"] (Layout.mk linear None None None)
         sampleWorld = (Ok cards, w')
       /\ map Card.id cards = validIds sampleWorld ["a"; "b"].
Proof.
  split; [reflexivity|].
  destruct (autoArrangeCards_linear sampleWorld ["a"; "b"]
              (Layout.mk linear None None None) sampleWorld_wf eq_refl)
    as (cards & w' & Hrun & Hids & _).
  exists cards, w'. split; [exact Hrun|exact Hids].
Defined.

(** ** The store invariant *)

Lemma updateCard_wf w id updates :
  storeWf w -> storeWf (snd (updateCard id updates w)).
Proof.
  intros Hw. destruct (cardsDir w !! id) as [card|] eqn:Hid.
  - rewrite (updateCard_stored w id card) by done. by apply storeWf_saved.
  - by rewrite updateCard_missing.
Qed.

Lemma splitCard_wf w id splitPoint :
  storeWf w -> storeWf (snd (splitCard id splitPoint w)).
Proof.
  intros Hw. destruct (cardsDir w !! id) as [card|] eqn:Hid.
  - rewrite (splitCard_stored w id card) by done. cbv zeta.
    unfold storeWf, createdWorld, savedWorld. cbn [snd cardsDir].
    apply cardsWf_insert, cardsWf_insert, cardsWf_insert, cardsWf_insert.
    exact Hw.
  - by rewrite splitCard_missing.
Qed.

Lemma mergeCards_wf w id1 id2 :
  storeWf w -> storeWf (snd (mergeCards id1 id2 w)).
Proof.
  intros Hw.
  destruct (cardsDir w !! id1) as [c1|] eqn:H1;
    [|by rewrite mergeCards_missing by (by left)].
  destruct (cardsDir w !! id2) as [c2|] eqn:H2;
    [|by rewrite mergeCards_missing by (by right)].
  destruct (mergeCards_stored w id1 id2 c1 c2 H1 H2) as (w' & Hrun & Hw').
  cbv zeta in *. rewrite Hrun. unfold storeWf. cbn [snd]. rewrite Hw'.
  apply cardsWf_delete, cardsWf_insert, cardsWf_insert. exact Hw.
Qed.

Lemma deleteCard_wf w id : storeWf w -> storeWf (snd (deleteCard id w)).
Proof.
  intros Hw. unfold deleteCard, Storage.deleteCard.
  destruct (cardsDir w !! id); [|done].
  unfold storeWf. simpl. by apply cardsWf_delete.
Qed.

(** Every card document sits in the file named after its own id, and
    every operation on cards keeps it so: [createCard], [updateCard]
    with any patch, [splitCard], [mergeCards], [deleteCard] and
    [autoArrangeCards], whether they succeed or fail. *)
Theorem storeWf_preserved w :
  storeWf w ->
  (forall content title tags position,
     storeWf (snd (createCard content title tags position w)))
  /\ (forall id updates, storeWf (snd (updateCard id updates w)))
  /\ (forall id splitPoint, storeWf (snd (splitCard id splitPoint w)))
  /\ (forall id1 id2, storeWf (snd (mergeCards id1 id2 w)))
  /\ (forall id, storeWf (snd (deleteCard id w)))
  /\ (forall cardIds layout,
        storeWf (snd (autoArrangeCards cardIds layout w))).
Proof.
  intros Hw. split; [|split; [|split; [|split; [|split]]]].
  - intros content title tags position. rewrite createCard_run.
    by apply storeWf_created.
  - intros id updates. by apply updateCard_wf.
  - intros id p. by apply splitCard_wf.
  - intros id1 id2. by apply mergeCards_wf.
  - intros id. by apply deleteCard_wf.
  - intros cardIds layout.
    destruct (autoArrangeCards_documents w cardIds layout Hw)
      as (cards & w' & Hrun & _ & _ & _ & _ & _ & Hw' & _).
    by rewrite Hrun.
Qed.

Lemma storeWf_preserved_witness :
  storeWf (snd (mergeCards "a" "b" sampleWorld)).
Proof.
  apply (proj1 (proj2 (proj2 (proj2 (storeWf_preserved sampleWorld
                                       sampleWorld_wf))))).
Defined.

(** ** Importing text *)

Lemma filter_trim_nonblank (l : list string) :
  map Text.trim
    (filter (fun s => (0 <? String.length (Text.trim s))%nat) l)
  = filter (fun p => (0 <? String.length p)%nat) (map Text.trim l).
Proof.
  induction l as [|s l IH]; [done|].
  simpl. rewrite !filter_cons.
  destruct (decide (0 <? String.length (Text.trim s))%nat); simpl;
    by rewrite IH.
Qed.

(** In paragraph mode the texts that [importTextAsCards] turns into
    cards are, once trimmed, exactly the paragraphs of
    [detectParagraphs]; in paragraph and in sentence mode no segment is
    blank; in custom mode the whole text is the one segment, blank or
    not. *)
Theorem importSegments_modes text :
  map Text.trim (importSegments text paragraph) = Text.detectParagraphs text
  /\ Forall (fun s => Text.trim s <> EmptyString)
       (importSegments text paragraph)
  /\ Forall (fun s => Text.trim s <> EmptyString)
       (importSegments text sentence)
  /\ importSegments text custom = [text].
Proof.
  split; [apply filter_trim_nonblank|].
  assert (H : forall l : list string,
            Forall (fun s => Text.trim s <> EmptyString)
              (filter (fun s => (0 <? String.length (Text.trim s))%nat) l)).
  { intros l. apply Forall_forall. intros s [Hs _]%list_elem_of_filter.
    intros E. rewrite E in Hs. done. }
  split; [apply H|]. split; [apply H|done].
Qed.

Lemma validIds_subset w (cardIds : list string) k :
  k ∈ validIds w cardIds -> k ∈ cardIds.
Proof. unfold validIds. by intros [_ ?]%list_elem_of_filter. Qed.

Lemma createChunk_run_wf w name cardIds purpose layout :
  storeWf w ->
  let chunk :=
    Chunk.mk (randomUUID w (issued w)) name (default [] cardIds)
      (default "general" purpose) (default defaultLayout layout) in
  exists w',
    createChunk name cardIds purpose layout w = (Ok chunk, w')
    /\ sameDocuments (cardsDir w) (cardsDir w')
    /\ (forall k, k ∉ default [] cardIds ->
                  cardsDir w' !! k = cardsDir w !! k)
    /\ chunksDir w' = <[Chunk.id chunk := chunk]> (chunksDir w)
    /\ storeWf w'.
Proof.
  intros Hw. cbv zeta. unfold createChunk.
  erewrite bind_ok by reflexivity.
  erewrite bind_ok by reflexivity.
  remember (default [] cardIds) as ids eqn:Hids.
  remember (default defaultLayout layout) as l eqn:Hl.
  remember (default "general" purpose) as pur eqn:Hpur.
  set (chunk := Chunk.mk (randomUUID w (issued w)) name ids pur l).
  set (w1 := withChunks _ _).
  assert (Hw1 : storeWf w1) by exact Hw.
  destruct (default false (Layout.autoArrange l) && (0 <? length ids)%nat).
  - destruct (autoArrangeCards_documents w1 ids l Hw1)
      as (cards & w' & Hrun & _ & Hdocs & Hframe & Hch & _ & Hw' & _).
    exists w'. split.
    { erewrite bind_ok; [reflexivity|].
      erewrite bind_ok by exact Hrun. reflexivity. }
    split; [exact Hdocs|]. split; [|split; [by rewrite Hch|done]].
    intros k Hk. apply Hframe. intros Hin. apply Hk.
    by apply validIds_subset in Hin.
  - exists w1. split; [reflexivity|].
    split; [apply sameDocuments_refl|]. done.
Qed.

(** On a store whose cards sit under their own ids, [createChunk]
    succeeds: it stores and returns a chunk under the next identifier
    with the given name, the given [cardIds] in the given order
    (duplicates and unresolved ids included), the purpose (by default
    [general]) and the layout (by default the 3-column grid).  Cards may
    be moved, but no card is created or removed, none changes content,
    and cards that are not listed are not written. *)
Theorem createChunk_effect w name cardIds purpose layout :
  storeWf w ->
  let chunk :=
    Chunk.mk (randomUUID w (issued w)) name (default [] cardIds)
      (default "general" purpose) (default defaultLayout layout) in
  exists w',
    createChunk name cardIds purpose layout w = (Ok chunk, w')
    /\ getChunk (Chunk.id chunk) w' = (Ok (Some chunk), w')
    /\ sameDocuments (cardsDir w) (cardsDir w')
    /\ (forall k, k ∉ default [] cardIds ->
                  cardsDir w' !! k = cardsDir w !! k).
Proof.
  intros Hw. cbv zeta.
  destruct (createChunk_run_wf w name cardIds purpose layout Hw)
    as (w' & Hrun & Hdocs & Hframe & Hch & _).
  exists w'. split; [exact Hrun|]. split; [|done].
  unfold getChunk, Storage.loadChunk. rewrite Hch.
  by rewrite lookup_insert_eq.
Qed.

Lemma createChunk_effect_witness :
  exists w',
    createChunk "Scene" (Some ["b"; "gone"; "a"; "b"]) None None sampleWorld
    = (Ok (Chunk.mk "uuid-0" "Scene" ["b"; "gone"; "a"; "b"] "general"
             defaultLayout), w').
Proof.
  destruct (createChunk_effect sampleWorld "Scene"
              (Some ["b"; "gone"; "a"; "b"]) None None sampleWorld_wf)
    as (w' & Hrun & _).
  exists w'. exact Hrun.
Defined.

Lemma importedFrom_payload segment c c' :
  samePayload c c' -> importedFrom segment c -> importedFrom segment c'.
Proof.
  unfold samePayload, importedFrom.
  intros (?&?&?&?&?&?&?&?&?&?&?) (?&?&?&?&?&?).
  repeat split; congruence.
Qed.

Lemma importCardsFrom_spec segments : forall i w,
  storeWf w ->
  exists cards w',
    importCardsFrom i segments w = (Ok cards, w')
    /\ storeWf w'
    /\ map Card.id cards = nextIds w (length segments)
    /\ randomUUID w' = randomUUID w
    /\ issued w' = (issued w + length segments)%nat
    /\ chunksDir w' = chunksDir w
    /\ (forall k, k ∉ nextIds w (length segments) ->
                  cardsDir w' !! k = cardsDir w !! k)
    /\ (NoDup (nextIds w (length segments)) ->
        Forall2 (fun k segment =>
                   exists c, cardsDir w' !! k = Some c
                             /\ importedFrom segment c)
          (nextIds w (length segments)) segments).
Proof.
  induction segments as [|segment rest IH]; intros i w Hw.
  - exists [], w. simpl. split; [done|]. split; [done|]. split; [done|].
    split; [done|]. split; [lia|]. split; [done|]. split; [done|].
    intros _. constructor.
  - set (c := createdCard w (Text.trim segment)
                (Some (Text.extractTitle (Text.trim segment))) (Some [])
                (Some (Position.mk (Z.rem i 3 * 270) (i / 3 * 220) 250 200
                         None))).
    set (w1 := createdWorld w c).
    assert (Hw1 : storeWf w1) by by apply storeWf_created.
    destruct (IH (i + 1) w1 Hw1)
      as (cards & w' & Hrun & Hw' & Hids & Huuid & Hiss & Hch & Hframe & Hst).
    assert (Hnext : nextIds w (length (segment :: rest))
                    = Card.id c :: nextIds w1 (length rest)) by reflexivity.
    exists (c :: cards), w'. split.
    { simpl. erewrite bind_ok by apply createCard_run.
      fold c w1. erewrite bind_ok by exact Hrun. reflexivity. }
    split; [done|]. split; [rewrite Hnext; simpl; by rewrite Hids|].
    split; [by rewrite Huuid|]. split; [rewrite Hiss; simpl; lia|].
    split; [by rewrite Hch|]. split.
    + intros k Hk. rewrite Hnext in Hk.
      apply not_elem_of_cons in Hk as [Hk1 Hk2].
      rewrite Hframe by done. unfold w1, createdWorld. simpl.
      by rewrite lookup_insert_ne.
    + intros Hnd. rewrite Hnext in Hnd |- *.
      apply NoDup_cons in Hnd as [Hnotin Hnd]. constructor.
      * exists c. split.
        -- rewrite Hframe by done. apply createdWorld_lookup.
        -- unfold importedFrom, c. simpl. repeat split.
           by destruct (Text.isEmpty (Text.extractTitle (Text.trim segment))).
      * by apply Hst.
Qed.

Lemma importTextAsCards_run w text name splitBy :
  storeWf w ->
  let segments := importSegments text (default paragraph splitBy) in
  let ids := nextIds w (length segments) in
  let chunk :=
    Chunk.mk (randomUUID w (issued w + length segments)) name ids
      "imported-text" defaultLayout in
  exists w',
    importTextAsCards text name splitBy w = (Ok chunk, w')
    /\ chunksDir w' !! Chunk.id chunk = Some chunk
    /\ storeWf w'
    /\ (forall k, k ∉ ids -> cardsDir w' !! k = cardsDir w !! k)
    /\ (NoDup ids ->
        Forall2 (fun k segment =>
                   exists c, cardsDir w' !! k = Some c
                             /\ importedFrom segment c)
          ids segments).
Proof.
  intros Hw. cbv zeta.
  set (segments := importSegments text (default paragraph splitBy)).
  destruct (importCardsFrom_spec segments 0 w Hw)
    as (cards & w1 & Hrun1 & Hw1 & Hids & Huuid & Hiss & Hch & Hframe & Hst).
  destruct (createChunk_run_wf w1 name (Some (map Card.id cards))
              (Some "imported-text") None Hw1)
    as (w' & Hrun2 & Hdocs & Hframe2 & Hch2 & Hw').
  cbv zeta in Hrun2, Hch2. simpl in Hrun2, Hch2, Hframe2.
  rewrite Hids, Huuid, Hiss in Hrun2, Hch2. rewrite Hids in Hframe2.
  exists w'. split.
  { unfold importTextAsCards. fold segments.
    erewrite bind_ok by exact Hrun1. rewrite Hids.
    erewrite bind_ok by exact Hrun2. reflexivity. }
  split; [rewrite Hch2; apply lookup_insert_eq|]. split; [done|]. split.
  - intros k Hk. rewrite Hframe2 by done. by apply Hframe.
  - intros Hnd. specialize (Hst Hnd).
    eapply Forall2_impl; [exact Hst|].
    intros k segment (c & Hk & Himp). simpl in Hk.
    specialize (Hdocs k). rewrite Hk in Hdocs.
    destruct (cardsDir w' !! k) as [c'|]; [|done].
    exists c'. split; [done|]. by eapply importedFrom_payload.
Qed.

Lemma exported_contents (m : gmap string Card.t) ids segments :
  Forall2 (fun k segment =>
             exists c, m !! k = Some c /\ importedFrom segment c)
    ids segments ->
  map Card.content (omap (fun k => m !! k) ids) = map Text.trim segments.
Proof.
  induction 1 as [|k segment ids segments (c & Hk & Hc & _) _ IH]; [done|].
  simpl. rewrite Hk. simpl. f_equal; [exact Hc|exact IH].
Qed.

(** On a store whose cards sit under their own ids, [importTextAsCards]
    succeeds and returns a chunk named as asked, with the purpose
    [imported-text] and the default layout, stored under the identifier
    drawn after those of the cards; its [cardIds] are the identifiers
    drawn for the segments, in the segments' order.  Cards stored under
    other ids are not written.  When those identifiers are pairwise
    distinct, each one holds a draft card with the trimmed segment as
    content, the title extracted from it, its word count, no tags and a
    one-entry history. *)
Theorem importTextAsCards_effect w text name splitBy :
  storeWf w ->
  let segments := importSegments text (default paragraph splitBy) in
  let ids := nextIds w (length segments) in
  let chunk :=
    Chunk.mk (randomUUID w (issued w + length segments)) name ids
      "imported-text" defaultLayout in
  exists w',
    importTextAsCards text name splitBy w = (Ok chunk, w')
    /\ getChunk (Chunk.id chunk) w' = (Ok (Some chunk), w')
    /\ (forall k, k ∉ ids -> cardsDir w' !! k = cardsDir w !! k)
    /\ (NoDup ids ->
        Forall2 (fun k segment =>
                   exists c, cardsDir w' !! k = Some c
                             /\ importedFrom segment c)
          ids segments).
Proof.
  intros Hw. cbv zeta.
  destruct (importTextAsCards_run w text name splitBy Hw)
    as (w' & Hrun & Hchunk & _ & Hframe & Hst).
  cbv zeta in *. exists w'. split; [exact Hrun|]. split; [|done].
  unfold getChunk, Storage.loadChunk. by rewrite Hchunk.
Qed.

(** Importing a text and exporting the chunk that comes back gives the
    trimmed segments joined by the blank-line separator (the identifiers
    drawn for the cards being pairwise distinct); in the default
    paragraph mode that is the paragraphs of [detectParagraphs] joined
    by blank lines. *)
Theorem import_then_export w text name splitBy :
  storeWf w ->
  let segments := importSegments text (default paragraph splitBy) in
  NoDup (nextIds w (length segments)) ->
  exists chunk w',
    importTextAsCards text name splitBy w = (Ok chunk, w')
    /\ exportChunkAsText (Chunk.id chunk) w'
       = (Ok (Text.join Text.blankLine (map Text.trim segments)), w')
    /\ (default paragraph splitBy = paragraph ->
        exportChunkAsText (Chunk.id chunk) w'
        = (Ok (Text.join Text.blankLine (Text.detectParagraphs text)), w')).
Proof.
  intros Hw. cbv zeta. intros Hnd.
  destruct (importTextAsCards_run w text name splitBy Hw)
    as (w' & Hrun & Hchunk & _ & _ & Hst).
  cbv zeta in *. specialize (Hst Hnd).
  eexists _, w'. split; [exact Hrun|].
  assert (Hexp : exportChunkAsText
                   (randomUUID w
                      (issued w
                       + length (importSegments text
                                   (default paragraph splitBy)))) w'
                 = (Ok (Text.join Text.blankLine
                          (map Text.trim
                             (importSegments text
                                (default paragraph splitBy)))), w')).
  { unfold exportChunkAsText.
    rewrite (bind_ok _ _ w' (Some _) w')
      by (unfold Storage.loadChunk; simpl in Hchunk; by rewrite Hchunk).
    erewrite bind_ok by reflexivity.
    unfold ret. simpl. by rewrite (exported_contents _ _ _ Hst). }
  split; [exact Hexp|].
  intros Hmode. cbn [Chunk.id]. rewrite Hexp, Hmode.
  unfold importSegments. by rewrite filter_trim_nonblank.
Qed.

Lemma sampleText_ids_distinct :
  NoDup (nextIds sampleWorld
           (length (importSegments sampleText (default paragraph None)))).
Proof. apply (@bool_decide_unpack _ (NoDup_dec _)). vm_compute. exact I. Qed.

Lemma importTextAsCards_effect_witness :
  exists w',
    importTextAsCards sampleText "Chapter" None sampleWorld
    = (Ok (Chunk.mk "uuid-3" "Chapter" ["uuid-0"; "uuid-1"; "uuid-2"]
             "imported-text" defaultLayout), w').
Proof.
  destruct (importTextAsCards_effect sampleWorld sampleText "Chapter" None
              sampleWorld_wf)
    as (w' & Hrun & _).
  exists w'. exact Hrun.
Defined.

Lemma import_then_export_witness :
  exists chunk w',
    importTextAsCards sampleText "Chapter" None sampleWorld = (Ok chunk, w')
    /\ exportChunkAsText (Chunk.id chunk) w'
       = (Ok ("Para one." +:+ Text.blankLine +:+ "Para two."
              +:+ Text.blankLine +:+ "Para three."), w').
Proof.
  destruct (import_then_export sampleWorld sampleText "Chapter" None
              sampleWorld_wf sampleText_ids_distinct)
    as (chunk & w' & Hrun & Hexp & _).
  exists chunk, w'. split; [exact Hrun|exact Hexp].
Defined.

(** ** Storage round trips and chunk updates *)

(** What [saveCard] writes is what [loadCard] reads back under the
    card's id, whatever was there before; every other card and every
    chunk is untouched, and a [deleteCard] right after answers true and
    leaves the id empty.  The same holds for chunks. *)
Theorem storage_round_trip w :
  (forall card,
     exists w',
       Storage.saveCard card w = (Ok tt, w')
       /\ Storage.loadCard (Card.id card) w' = (Ok (Some card), w')
       /\ (forall k, k <> Card.id card ->
                     Storage.loadCard k w' = (Ok (cardsDir w !! k), w'))
       /\ chunksDir w' = chunksDir w
       /\ exists w'',
            Storage.deleteCard (Card.id card) w' = (Ok true, w'')
            /\ cardsDir w'' !! Card.id card = None)
  /\ (forall chunk,
        exists w',
          Storage.saveChunk chunk w = (Ok tt, w')
          /\ Storage.loadChunk (Chunk.id chunk) w' = (Ok (Some chunk), w')
          /\ (forall k, k <> Chunk.id chunk ->
                        Storage.loadChunk k w' = (Ok (chunksDir w !! k), w'))
          /\ cardsDir w' = cardsDir w
          /\ exists w'',
               Storage.deleteChunk (Chunk.id chunk) w' = (Ok true, w'')
               /\ chunksDir w'' !! Chunk.id chunk = None).
Proof.
  split.
  - intros card. eexists. split; [reflexivity|].
    unfold Storage.loadCard, Storage.deleteCard, withCards. simpl.
    rewrite lookup_insert_eq. split; [done|]. split.
    { intros k Hk. by rewrite lookup_insert_ne. }
    split; [done|]. eexists. split; [reflexivity|].
    simpl. apply lookup_delete_eq.
  - intros chunk. eexists. split; [reflexivity|].
    unfold Storage.loadChunk, Storage.deleteChunk, withChunks. simpl.
    rewrite lookup_insert_eq. split; [done|]. split.
    { intros k Hk. by rewrite lookup_insert_ne. }
    split; [done|]. eexists. split; [reflexivity|].
    simpl. apply lookup_delete_eq.
Qed.

Lemma updateChunk_missing w id updates :
  chunksDir w !! id = None ->
  updateChunk id updates w = (Err (ChunkNotFound id), w).
Proof.
  intros Hid. unfold updateChunk.
  rewrite (bind_ok _ _ w None w)
    by (unfold Storage.loadChunk; by rewrite Hid).
  reflexivity.
Qed.

Lemma updateChunk_run_wf w id chunk updates :
  storeWf w ->
  chunksDir w !! id = Some chunk ->
  let updated := spreadChunk chunk updates in
  exists w',
    updateChunk id updates w = (Ok updated, w')
    /\ sameDocuments (cardsDir w) (cardsDir w')
    /\ chunksDir w' = <[Chunk.id updated := updated]> (chunksDir w)
    /\ storeWf w'.
Proof.
  intros Hw Hid. cbv zeta. unfold updateChunk.
  rewrite (bind_ok _ _ w (Some chunk) w)
    by (unfold Storage.loadChunk; by rewrite Hid).
  erewrite bind_ok by reflexivity.
  remember (spreadChunk chunk updates) as updated eqn:Hupd.
  set (w1 := withChunks _ _).
  assert (Hw1 : storeWf w1) by exact Hw.
  destruct (default false (ChunkPatch.layout updates ≫= Layout.autoArrange)
            && (0 <? length (Chunk.cardIds updated))%nat).
  - destruct (autoArrangeCards_documents w1 (Chunk.cardIds updated)
                (Chunk.layout updated) Hw1)
      as (cards & w' & Hrun & _ & Hdocs & _ & Hch & _ & Hw' & _).
    exists w'. split.
    { erewrite bind_ok; [reflexivity|].
      erewrite bind_ok by exact Hrun. reflexivity. }
    split; [exact Hdocs|]. split; [by rewrite Hch|done].
  - exists w1. split; [reflexivity|].
    split; [apply sameDocuments_refl|]. done.
Qed.

(** [updateChunk] on an id without a stored chunk fails with the
    chunk-not-found error and writes nothing.  On a stored chunk (the
    cards sitting under their own ids) it succeeds: every field that the
    patch carries replaces the stored one as a whole, [cardIds] in the
    patch's order, the others stay; the result is stored under its id
    and returned; no card is created or removed and none changes
    content. *)
Theorem updateChunk_effect w id updates :
  storeWf w ->
  match chunksDir w !! id with
  | None => updateChunk id updates w = (Err (ChunkNotFound id), w)
  | Some chunk =>
      exists w',
        updateChunk id updates w
        = (Ok (Chunk.mk (default (Chunk.id chunk) (ChunkPatch.id updates))
                 (default (Chunk.name chunk) (ChunkPatch.name updates))
                 (default (Chunk.cardIds chunk) (ChunkPatch.cardIds updates))
                 (default (Chunk.purpose chunk) (ChunkPatch.purpose updates))
                 (default (Chunk.layout chunk) (ChunkPatch.layout updates))),
           w')
        /\ getChunk (default (Chunk.id chunk) (ChunkPatch.id updates)) w'
           = (Ok (Some (spreadChunk chunk updates)), w')
        /\ sameDocuments (cardsDir w) (cardsDir w')
  end.
Proof.
  intros Hw. destruct (chunksDir w !! id) as [chunk|] eqn:Hid.
  - destruct (updateChunk_run_wf w id chunk updates Hw Hid)
      as (w' & Hrun & Hdocs & Hch & _).
    cbv zeta in *. exists w'. split; [exact Hrun|]. split; [|done].
    unfold getChunk, Storage.loadChunk. rewrite Hch.
    by rewrite lookup_insert_eq.
  - by apply updateChunk_missing.
Qed.

Lemma updateChunk_effect_witness :
  exists w',
    updateChunk "k"
      (ChunkPatch.mk None None (Some ["b"; "a"]) None None) sampleWorld
    = (Ok (Chunk.mk "k" "Chapter" ["b"; "a"] "general" defaultLayout), w').
Proof.
  destruct (updateChunk_effect sampleWorld "k"
              (ChunkPatch.mk None None (Some ["b"; "a"]) None None)
              sampleWorld_wf)
    as (w' & Hrun & _).
  exists w'. exact Hrun.
Defined.

(** ** The in-memory manager *)

Lemma pretty_N_char_digit x : isDigit (pretty_N_char x) = true.
Proof. unfold pretty_N_char. by repeat case_match. Qed.

Lemma pretty_N_go_digits x : forall s,
  allChars isDigit s = true -> allChars isDigit (pretty_N_go x s) = true.
Proof.
  induction (N.lt_wf_0 x) as [x _ IH]; intros s Hs.
  assert (x = 0 \/ 0 < x)%N as [->|Hx] by lia.
  - by rewrite pretty_N_go_0.
  - rewrite pretty_N_go_step by done. apply IH.
    + by apply N.div_lt.
    + simpl. by rewrite pretty_N_char_digit, Hs.
Qed.

Lemma pretty_nat_digits (n : nat) : allChars isDigit (pretty n) = true.
Proof.
  unfold pretty, pretty_nat, pretty, pretty_N.
  case_decide; [done|]. by apply pretty_N_go_digits.
Qed.

Lemma digits_before_separator a : forall a' x x',
  allChars isDigit a = true -> allChars isDigit a' = true ->
  a +:+ String "_" x = a' +:+ String "_" x' -> a = a'.
Proof.
  induction a as [|c a IH]; intros [|c' a'] x x' Ha Ha' E; simpl in *.
  - done.
  - injection E as <- _. apply andb_true_iff in Ha' as [Hc _]. done.
  - injection E as -> _. apply andb_true_iff in Ha as [Hc _]. done.
  - injection E as -> E.
    apply andb_true_iff in Ha as [_ Ha].
    apply andb_true_iff in Ha' as [_ Ha'].
    f_equal. by eapply IH.
Qed.

Lemma idOf_counter_inj n n' t t' :
  Memory.idOf n t = Memory.idOf n' t' -> n = n'.
Proof.
  unfold Memory.idOf. intros E.
  apply (inj (String.app "card_")) in E.
  apply (inj pretty).
  eapply digits_before_separator; [apply pretty_nat_digits..|exact E].
Qed.

(** Two identifiers that the in-memory manager builds from different
    counter values differ, whatever the clock says; so two cards created
    one after the other get different ids, and both are stored
    afterwards. *)
Theorem memory_ids_distinct :
  (forall n n' t t', n <> n' -> Memory.idOf n t <> Memory.idOf n' t')
  /\ (forall s content1 title1 tags1 position1
             content2 title2 tags2 position2,
        let r1 := Memory.createCard content1 title1 tags1 position1 s in
        let r2 :=
          Memory.createCard content2 title2 tags2 position2 (snd r1) in
        Card.id (fst r1) <> Card.id (fst r2)
        /\ Memory.getCard (Card.id (fst r1)) (snd r2) = Some (fst r1)
        /\ Memory.getCard (Card.id (fst r2)) (snd r2) = Some (fst r2)).
Proof.
  split.
  - intros n n' t t' Hne E. by apply Hne, (idOf_counter_inj n n' t t').
  - intros s c1 t1 g1 p1 c2 t2 g2 p2. cbv zeta.
    assert (Hne : Card.id (fst (Memory.createCard c1 t1 g1 p1 s))
                  <> Card.id
                       (fst (Memory.createCard c2 t2 g2 p2
                               (snd (Memory.createCard c1 t1 g1 p1 s))))).
    { simpl. intros E. apply idOf_counter_inj in E. lia. }
    split; [exact Hne|]. unfold Memory.getCard. split.
    + simpl in *. rewrite lookup_insert_ne by congruence.
      apply lookup_insert_eq.
    + simpl. apply lookup_insert_eq.
Qed.

(** On the same cards and chunks the two managers export the same text
    for a stored chunk; for an id without a chunk the file-backed one
    fails with the chunk-not-found error while the in-memory one returns
    the empty string. *)
Theorem export_variants w s chunkId :
  Memory.cards s = cardsDir w ->
  Memory.chunks s = chunksDir w ->
  match chunksDir w !! chunkId with
  | Some _ =>
      exportChunkAsText chunkId w
      = (Ok (Memory.exportChunkAsText chunkId s), w)
  | None =>
      exportChunkAsText chunkId w = (Err (ChunkNotFound chunkId), w)
      /\ Memory.exportChunkAsText chunkId s = EmptyString
  end.
Proof.
  intros Hcards Hchunks.
  unfold exportChunkAsText, Memory.exportChunkAsText, Memory.getCard, bind,
    Storage.loadChunk, loadValidCards, ret, throw.
  rewrite Hcards, Hchunks. by destruct (chunksDir w !! chunkId).
Qed.

Lemma export_variants_witness :
  exportChunkAsText "k" sampleWorld
  = (Ok (Memory.exportChunkAsText "k" sampleState), sampleWorld).
Proof.
  apply (export_variants sampleWorld sampleState "k" eq_refl eq_refl).
Defined.

Lemma onlyWhiteSpace_append a b :
  onlyWhiteSpace (a +:+ b) = onlyWhiteSpace a && onlyWhiteSpace b.
Proof.
  induction a as [|c a IH]; simpl; [done|].
  by rewrite IH, andb_assoc.
Qed.

Lemma appendChunks_blank chunkIds s : forall exportText,
  onlyWhiteSpace exportText = true ->
  Forall (fun k => Memory.exportChunkAsText k s = EmptyString) chunkIds ->
  onlyWhiteSpace (Memory.appendChunks exportText chunkIds s) = true.
Proof.
  induction chunkIds as [|k ks IH]; intros acc Hacc Hall; simpl; [done|].
  inversion Hall as [|? ? Hk Hks]; subst.
  apply IH; [|done].
  rewrite Hk, !onlyWhiteSpace_append, Hacc. reflexivity.
Qed.

(** [exportViewAsText] fails with the view-not-found error for an id
    without a view.  For a stored view it never fails, whatever its
    chunk ids resolve to, and its result has no white space at either
    end; when no chunk of the view yields text (the chunk is missing, is
    empty or holds only missing or empty cards) the result is the empty
    string. *)
Theorem exportViewAsText_trimmed s viewId :
  match Memory.views s !! viewId with
  | None => Memory.exportViewAsText viewId s = inl (Memory.ViewNotFound viewId)
  | Some view =>
      exists text,
        Memory.exportViewAsText viewId s = inr text
        /\ Text.trim text = text
        /\ (Forall (fun k => Memory.exportChunkAsText k s = EmptyString)
              (View.chunkIds view) ->
            text = EmptyString)
  end.
Proof.
  unfold Memory.exportViewAsText, Memory.getView.
  destruct (Memory.views s !! viewId) as [view|]; [|done].
  eexists. split; [reflexivity|]. split; [apply trim_idem|].
  intros Hall. apply trim_blank. by apply appendChunks_blank.
Qed.

Example exportViewAsText_sample :
  Memory.exportViewAsText "v" sampleState
  = inr ("hello world" +:+ Text.blankLine +:+ "second card"
         +:+ Text.blankLine +:+ Text.blankLine +:+ " indented").
Proof. vm_compute. reflexivity. Qed.

Lemma countWords_same s : Text.countWords s = InMemory.countWords s.
Proof.
  destruct (Text.isEmpty (Text.trim s)) eqn:Et.
  - apply isEmpty_true in Et.
    destruct (trim_whitespace_only s Et) as [H1 H2]. by rewrite H1, H2.
  - assert (Hne : Text.trim s <> EmptyString).
    { intros E. rewrite E in Et. done. }
    pose proof (splitRuns_words (Text.trim s) Hne (trim_clean s)
                  (trim_trimEnd s)) as Hall.
    unfold InMemory.countWords. rewrite (filter_allWords _ Hall).
    unfold Text.countWords. rewrite isEmpty_length, Et, orb_false_r.
    destruct s as [|c s]; [done|]. done.
Qed.

Lemma memory_updateCard_stored s id card updates :
  Memory.cards s !! id = Some card ->
  exists c,
    Memory.updateCard id updates s
    = (Ok c,
       Memory.mkState (<[id := c]> (Memory.cards s)) (Memory.chunks s)
         (Memory.views s) (Memory.nextId s) (Memory.clock s)
         (S (Memory.reads s)))
    /\ Card.id c = default (Card.id card) (CardPatch.id updates)
    /\ Card.title c = default (Card.title card) (CardPatch.title updates)
    /\ Card.content c
       = default (Card.content card) (CardPatch.content updates)
    /\ Card.tags c = default (Card.tags card) (CardPatch.tags updates)
    /\ Card.status c = default (Card.status card) (CardPatch.status updates)
    /\ Card.position c
       = default (Card.position card) (CardPatch.position updates)
    /\ Meta.updatedAt (Card.metadata c) = Memory.clock s (Memory.reads s)
    /\ (if contentChanged card updates
        then Card.history c
             = Card.history card
               ++ [Entry.mk (Memory.clock s (Memory.reads s))
                     (Card.content c) None edit]
             /\ Meta.wordCount (Card.metadata c)
                = InMemory.countWords (Card.content c)
        else Card.history c
             = default (Card.history card) (CardPatch.history updates)).
Proof.
  intros Hid. unfold Memory.updateCard, contentChanged, spreadCard.
  rewrite Hid. simpl.
  destruct (CardPatch.content updates) as [c|]; simpl.
  - destruct (negb (Text.isEmpty c)
              && negb (String.eqb c (Card.content card)));
      (eexists; split; [reflexivity|]; simpl; repeat split; try done;
       by destruct (CardPatch.metadata updates)).
  - eexists; split; [reflexivity|]; simpl; repeat split; try done;
      by destruct (CardPatch.metadata updates).
Qed.

(** On the same stored card and the same patch the two managers'
    [updateCard] both succeed and return cards with the same id, title,
    content, tags, status and position, and the same history entries up
    to their time stamps; when the patch carries a non-empty content
    that differs from the stored one, also the same word count. *)
Theorem updateCard_variants w s id card updates :
  cardsDir w !! id = Some card ->
  Memory.cards s !! id = Some card ->
  exists c1 w' c2 s',
    updateCard id updates w = (Ok c1, w')
    /\ Memory.updateCard id updates s = (Ok c2, s')
    /\ Card.id c1 = Card.id c2
    /\ Card.title c1 = Card.title c2
    /\ Card.content c1 = Card.content c2
    /\ Card.tags c1 = Card.tags c2
    /\ Card.status c1 = Card.status c2
    /\ Card.position c1 = Card.position c2
    /\ map entryShape (Card.history c1) = map entryShape (Card.history c2)
    /\ (contentChanged card updates = true ->
        Meta.wordCount (Card.metadata c1)
        = Meta.wordCount (Card.metadata c2)).
Proof.
  intros Hw Hs.
  destruct (memory_updateCard_stored s id card updates Hs)
    as (c2 & Hrun2 & Hid2 & Htitle2 & Hcontent2 & Htags2 & Hstatus2 & Hpos2
        & _ & Hhist2).
  eexists _, _, c2, _. split; [by apply updateCard_stored|].
  split; [exact Hrun2|].
  rewrite Hid2, Htitle2, Hcontent2, Htags2, Hstatus2, Hpos2.
  rewrite editedCard_content, editedCard_tags, editedCard_position.
  unfold editedCard.
  destruct (contentChanged card updates) eqn:Hch.
  - destruct Hhist2 as [Hh Hwc]. rewrite Hh, Hwc, Hcontent2. simpl.
    repeat split; try done.
    + rewrite !map_app. done.
    + intros _. apply contentChanged_true in Hch as (c & Hc & Hne & _).
      rewrite Hc. simpl.
      assert (Ht : Text.isEmpty c = false) by (by destruct c).
      rewrite Ht. simpl.
      destruct (CardPatch.metadata updates); apply countWords_same.
  - rewrite Hhist2. repeat split; done.
Qed.

Lemma updateCard_variants_witness :
  exists c1 w' c2 s',
    updateCard "a" (contentPatch "new text" None) sampleWorld = (Ok c1, w')
    /\ Memory.updateCard "a" (contentPatch "new text" None) sampleState
       = (Ok c2, s')
    /\ Card.content c1 = Card.content c2.
Proof.
  destruct (updateCard_variants sampleWorld sampleState "a" cardA
              (contentPatch "new text" None) eq_refl eq_refl)
    as (c1 & w' & c2 & s' & H1 & H2 & _ & _ & H3 & _).
  exists c1, w', c2, s'. split; [exact H1|]. split; [exact H2|exact H3].
Defined.

(** In the in-memory manager a patch that carries another [id] does not
    move the document: the merged card, now carrying the new id, is
    stored under the old key, and no other key is written. *)
Theorem memory_updateCard_id_patch s id card updates newId :
  Memory.cards s !! id = Some card ->
  CardPatch.id updates = Some newId ->
  exists c s',
    Memory.updateCard id updates s = (Ok c, s')
    /\ Card.id c = newId
    /\ Memory.getCard id s' = Some c
    /\ (forall k, k <> id ->
                  Memory.getCard k s' = Memory.getCard k s).
Proof.
  intros Hid Hnew.
  destruct (memory_updateCard_stored s id card updates Hid)
    as (c & Hrun & Hidc & _).
  eexists c, _. split; [exact Hrun|]. split; [by rewrite Hidc, Hnew|].
  unfold Memory.getCard. simpl. split.
  - apply lookup_insert_eq.
  - intros k Hk. by rewrite lookup_insert_ne.
Qed.

Lemma memory_updateCard_id_patch_witness :
  exists c s',
    Memory.updateCard "a"
      (CardPatch.mk (Some "a2") None None None None None None None)
      sampleState = (Ok c, s')
    /\ Card.id c = "a2"
    /\ Memory.getCard "a" s' = Some c.
Proof.
  destruct (memory_updateCard_id_patch sampleState "a" cardA
              (CardPatch.mk (Some "a2") None None None None None None None)
              "a2" eq_refl eq_refl)
    as (c & s' & Hrun & Hid & Hget & _).
  exists c, s'. split; [exact Hrun|]. split; [exact Hid|exact Hget].
Defined.

Lemma importParagraphs_cons name index p rest s :
  Memory.importParagraphs name index (p :: rest) s
  = let (card, s1) :=
      Memory.createCard (Text.trim p)
        (Some (name +:+ " - Part " +:+ pretty (index + 1)%nat))
        (Some [name; "imported"]) None s in
    let (ids, s2) := Memory.importParagraphs name (S index) rest s1 in
    (Card.id card :: ids, s2).
Proof. reflexivity. Qed.

Lemma memory_importParagraphs_spec name paragraphs : forall index s,
  let r := Memory.importParagraphs name index paragraphs s in
  Memory.nextId (snd r) = (Memory.nextId s + length paragraphs)%nat
  /\ Memory.chunks (snd r) = Memory.chunks s
  /\ Forall2 (fun k p =>
                exists c, Memory.cards (snd r) !! k = Some c
                          /\ Card.id c = k
                          /\ Card.content c = Text.trim p
                          /\ Card.tags c = [name; "imported"])
       (fst r) paragraphs
  /\ Forall (fun k => exists n t, k = Memory.idOf n t
                                  /\ (Memory.nextId s <= n)%nat)
       (fst r)
  /\ NoDup (fst r)
  /\ (forall k,
        (forall n t, (Memory.nextId s <= n)%nat -> k <> Memory.idOf n t) ->
        Memory.cards (snd r) !! k = Memory.cards s !! k).
Proof.
  induction paragraphs as [|p rest IH]; intros index s; cbv zeta.
  - simpl. split; [lia|]. split; [done|]. split; [constructor|].
    split; [constructor|]. split; [constructor|]. done.
  - rewrite importParagraphs_cons.
    destruct (Memory.createCard (Text.trim p)
                (Some (name +:+ " - Part " +:+ pretty (index + 1)%nat))
                (Some [name; "imported"]) None s) as [c s1] eqn:Ec.
    assert (Hfacts :
              Memory.nextId s1 = S (Memory.nextId s)
              /\ Card.id c
                 = Memory.idOf (Memory.nextId s)
                     (Memory.clock s (Memory.reads s))
              /\ Memory.cards s1 = <[Card.id c := c]> (Memory.cards s)
              /\ Memory.chunks s1 = Memory.chunks s
              /\ Card.content c = Text.trim p
              /\ Card.tags c = [name; "imported"]).
    { unfold Memory.createCard, Memory.generateId, Memory.tick in Ec.
      simpl in Ec. injection Ec as <- <-. simpl. repeat split. }
    destruct Hfacts as (Hs1 & Hidc & Hcards1 & Hch1 & Hcontent & Htags).
    specialize (IH (S index) s1). cbv zeta in IH.
    destruct (Memory.importParagraphs name (S index) rest s1)
      as [ids s2] eqn:Erest.
    simpl in IH. destruct IH as (Hn & Hch & Hst & Hfresh & Hnd & Hframe).
    assert (Hkeep : Memory.cards s2 !! Card.id c = Some c).
    { rewrite Hframe.
      - rewrite Hcards1. apply lookup_insert_eq.
      - intros n t Hle E. rewrite Hidc in E.
        apply idOf_counter_inj in E. lia. }
    change (fst (Card.id c :: ids, s2)) with (Card.id c :: ids).
    change (snd (Card.id c :: ids, s2)) with s2.
    split; [rewrite Hn, Hs1; simpl; lia|]. split; [by rewrite Hch, Hch1|].
    split; [constructor; [|done]|].
    { exists c. done. }
    split.
    { constructor.
      - exists (Memory.nextId s), (Memory.clock s (Memory.reads s)).
        split; [done|lia].
      - eapply Forall_impl; [exact Hfresh|].
        intros k (n & t & -> & Hle). exists n, t. split; [done|lia]. }
    split.
    { constructor; [|done].
      intros Hin. rewrite Forall_forall in Hfresh.
      destruct (Hfresh _ Hin) as (n & t & E & Hle).
      rewrite Hidc in E. apply idOf_counter_inj in E. lia. }
    intros k Hk. rewrite Hframe.
    + rewrite Hcards1, lookup_insert_ne; [done|].
      rewrite Hidc. intros E.
      by apply (Hk (Memory.nextId s) (Memory.clock s (Memory.reads s))).
    + intros n t Hle. apply Hk. lia.
Qed.

(** In the in-memory manager, importing a text and exporting the chunk
    that comes back always gives the paragraphs of [detectParagraphs]
    joined by the blank-line separator.  The chunk is named as asked,
    has the purpose [imported-text] and the in-memory default layout;
    its [cardIds] are pairwise distinct and resolve, in order, to cards
    that hold the paragraphs and the tags [chunkName] and [imported]. *)
Theorem memory_import_then_export s text name :
  let r := Memory.importTextAsCards text name s in
  let chunk := fst r in
  Chunk.name chunk = name
  /\ Chunk.purpose chunk = "imported-text"
  /\ Chunk.layout chunk = Memory.defaultLayout
  /\ NoDup (Chunk.cardIds chunk)
  /\ Forall2 (fun k p =>
                exists c, Memory.getCard k (snd r) = Some c
                          /\ Card.id c = k
                          /\ Card.content c = p
                          /\ Card.tags c = [name; "imported"])
       (Chunk.cardIds chunk) (Text.detectParagraphs text)
  /\ Memory.exportChunkAsText (Chunk.id chunk) (snd r)
     = Text.join Text.blankLine (Text.detectParagraphs text).
Proof.
  cbv zeta. unfold Memory.importTextAsCards.
  set (paragraphs :=
         filter (fun p => (0 <? String.length (Text.trim p))%nat)
           (Text.splitBlankLines text)).
  pose proof (memory_importParagraphs_spec name paragraphs 0 s) as Hspec.
  cbv zeta in Hspec.
  destruct (Memory.importParagraphs name 0 paragraphs s) as [ids s1].
  simpl in Hspec. destruct Hspec as (_ & _ & Hst & _ & Hnd & _).
  assert (Hdet : Text.detectParagraphs text = map Text.trim paragraphs).
  { unfold Text.detectParagraphs, paragraphs.
    by rewrite filter_trim_nonblank. }
  assert (Hst' : Forall2 (fun k p =>
                            exists c, Memory.cards s1 !! k = Some c
                                      /\ Card.id c = k
                                      /\ Card.content c = p
                                      /\ Card.tags c = [name; "imported"])
                   ids (Text.detectParagraphs text)).
  { rewrite Hdet. apply Forall2_fmap_r.
    eapply Forall2_impl; [exact Hst|]. done. }
  simpl. split; [done|]. split; [done|]. split; [done|]. split; [done|].
  split; [exact Hst'|].
  unfold Memory.exportChunkAsText, Memory.getCard. simpl.
  rewrite lookup_insert_eq. simpl. f_equal.
  clear -Hst'. induction Hst' as [|k p ks ps (c & Hk & _ & Hc & _) _ IH];
    [done|].
  simpl. rewrite Hk. simpl. f_equal; [exact Hc|exact IH].
Qed.

Example memory_import_sample :
  Memory.exportChunkAsText
    (Chunk.id (fst (Memory.importTextAsCards sampleText "Chapter"
                      sampleState)))
    (snd (Memory.importTextAsCards sampleText "Chapter" sampleState))
  = "Para one." +:+ Text.blankLine +:+ "Para two." +:+ Text.blankLine
    +:+ "Para three.".
Proof. vm_compute. reflexivity. Qed.

Lemma memory_ids_distinct_witness :
  1%nat <> 2%nat /\ Memory.idOf 1 1000 <> Memory.idOf 2 1000.
Proof.
  split; [lia|]. apply (proj1 memory_ids_distinct 1%nat 2%nat 1000 1000).
  lia.
Defined.
